(** * A shallow embedding of the users CRUD service (src/index.js)

    The development follows the Express application of [src/index.js]:
    the JavaScript values a request body can hold, the coercions that
    [validateUser] relies on, the five [/api/users] handlers run against a
    MySQL table, the catch blocks that turn thrown errors into responses,
    and the startup code ([app.listen] and [initDatabase]). *)

From Stdlib Require Import List Bool ZArith QArith String Ascii Lia Permutation.
Import ListNotations.
Open Scope Z_scope.
#[local] Set Warnings "-register-all".

(** ** JavaScript values *)

(** A JavaScript string is a sequence of UTF-16 code units. *)
Definition jstr := list N.

(** String literals of the source, written in ASCII. *)
Definition lit (s : string) : jstr :=
  map N_of_ascii (list_ascii_of_string s).

(** A JavaScript number: every finite double is a rational; the
    operations used by the code (isNaN, isInteger, comparisons with
    0 and 150) are exact on that rational. *)
Inductive jsnum :=
| NaN
| PInf
| NInf
| Fin (q : Q).

(** The values [express.json] and the code manipulate. Objects keep
    their properties in insertion order. *)
Inductive jsval :=
| JUndef
| JNull
| JBool (b : bool)
| JNum (n : jsnum)
| JStr (s : jstr)
| JArr (l : list jsval)
| JObj (fields : list (jstr * jsval)).

Definition jnum_z (z : Z) : jsval := JNum (Fin (inject_Z z)).

(** The conversions of the ECMAScript specification that are algorithms
    of their own: StringToNumber (used by [Number("...")]) and
    Number::toString. Every result below holds for any of them. *)
Class JsConv := {
  StringToNumber : jstr -> jsnum;
  NumberToString : jsnum -> jstr
}.

Section Coercions.
Context `{JsConv}.

(** [typeof v] *)
Definition typeof (v : jsval) : string :=
  match v with
  | JUndef => "undefined"
  | JNull => "object"
  | JBool _ => "boolean"
  | JNum _ => "number"
  | JStr _ => "string"
  | JArr _ | JObj _ => "object"
  end.

Definition q_is_zero (q : Q) : bool := Qeq_bool q 0.

(** [!v] is [js_falsy v]. *)
Definition js_falsy (v : jsval) : bool :=
  match v with
  | JUndef | JNull => true
  | JBool b => negb b
  | JNum NaN => true
  | JNum (Fin q) => q_is_zero q
  | JNum _ => false
  | JStr s => match s with [] => true | _ => false end
  | JArr _ | JObj _ => false
  end.

(** ToString on values (Array.prototype.toString joins with ","). *)
Fixpoint js_to_string (v : jsval) : jstr :=
  match v with
  | JUndef => lit "undefined"
  | JNull => lit "null"
  | JBool true => lit "true"
  | JBool false => lit "false"
  | JNum n => NumberToString n
  | JStr s => s
  | JArr l =>
      let fix join (l : list jsval) : jstr :=
        match l with
        | [] => []
        | [x] => match x with JUndef | JNull => [] | _ => js_to_string x end
        | x :: r =>
            (match x with JUndef | JNull => [] | _ => js_to_string x end)
              ++ lit "," ++ join r
        end in
      join l
  | JObj _ => lit "[object Object]"
  end.

(** ToPrimitive with hint number: for arrays and plain objects valueOf
    returns the object itself, so toString is used. *)
Definition ToPrimitive (v : jsval) : jsval :=
  match v with
  | JArr _ | JObj _ => JStr (js_to_string v)
  | _ => v
  end.

(** ToNumber on a primitive. *)
Definition ToNumber_prim (v : jsval) : jsnum :=
  match v with
  | JUndef => NaN
  | JNull => Fin 0
  | JBool true => Fin 1
  | JBool false => Fin 0
  | JNum n => n
  | JStr s => StringToNumber s
  | JArr _ | JObj _ => NaN
  end.

(** [Number(v)] *)
Definition Number (v : jsval) : jsnum := ToNumber_prim (ToPrimitive v).

(** [Number.isNaN] on a number. *)
Definition Number_isNaN (n : jsnum) : bool :=
  match n with NaN => true | _ => false end.

Definition q_is_integer (q : Q) : bool :=
  Z.eqb (Z.modulo (Qnum q) (Zpos (Qden q))) 0.

(** [Number.isInteger] on a number. *)
Definition Number_isInteger (n : jsnum) : bool :=
  match n with Fin q => q_is_integer q | _ => false end.

(** Numeric [<]: [undefined] (false) as soon as one side is NaN. *)
Definition num_lt (a b : jsnum) : bool :=
  match a, b with
  | NaN, _ | _, NaN => false
  | Fin x, Fin y => negb (Qle_bool y x)
  | NInf, NInf | PInf, PInf => false
  | NInf, _ => true
  | _, PInf => true
  | _, _ => false
  end.

(** Lexicographic order on code units. *)
Fixpoint str_lt (a b : jstr) : bool :=
  match a, b with
  | _, [] => false
  | [], _ :: _ => true
  | x :: a', y :: b' =>
      if N.ltb x y then true else if N.ltb y x then false else str_lt a' b'
  end.

(** The abstract relational comparison [x < y]. *)
Definition js_lt (x y : jsval) : bool :=
  match ToPrimitive x, ToPrimitive y with
  | JStr a, JStr b => str_lt a b
  | px, py => num_lt (ToNumber_prim px) (ToNumber_prim py)
  end.

(** [x === y] on primitives (objects compare by identity, which the
    code never does). *)
Definition js_strict_eq (x y : jsval) : bool :=
  match x, y with
  | JUndef, JUndef | JNull, JNull => true
  | JBool a, JBool b => Bool.eqb a b
  | JNum (Fin a), JNum (Fin b) => Qeq_bool a b
  | JNum PInf, JNum PInf | JNum NInf, JNum NInf => true
  | JStr a, JStr b =>
      (fix eqs (a b : jstr) : bool :=
         match a, b with
         | [], [] => true
         | c :: a', d :: b' => N.eqb c d && eqs a' b'
         | _, _ => false
         end) a b
  | _, _ => false
  end.

End Coercions.

(** ** String.prototype.trim *)

(** WhiteSpace and LineTerminator code points of ECMAScript. *)
Definition is_ws (c : N) : bool :=
  match c with
  | 9%N | 10%N | 11%N | 12%N | 13%N | 32%N | 160%N | 5760%N
  | 8232%N | 8233%N | 8239%N | 8287%N | 12288%N | 65279%N => true
  | _ => N.leb 8192 c && N.leb c 8202
  end.

Fixpoint trim_start (s : jstr) : jstr :=
  match s with
  | c :: r => if is_ws c then trim_start r else s
  | [] => []
  end.

Definition trim_end (s : jstr) : jstr := rev (trim_start (rev s)).

(** [s.trim()] *)
Definition trim (s : jstr) : jstr := trim_end (trim_start s).

(** ** Objects *)

(** Equality of strings, code unit by code unit. *)
Fixpoint jstr_eqb (a b : jstr) : bool :=
  match a, b with
  | [], [] => true
  | c :: a', d :: b' => N.eqb c d && jstr_eqb a' b'
  | _, _ => false
  end.

(** Property lookup in a plain object; with duplicate keys (as
    [JSON.parse] keeps the last one) the last binding wins. *)
Fixpoint obj_lookup (fs : list (jstr * jsval)) (k : jstr) : option jsval :=
  match fs with
  | [] => None
  | (k', v) :: r =>
      match obj_lookup r k with
      | Some w => Some w
      | None => if jstr_eqb k k' then Some v else None
      end
  end.

(** [o.k] for the keys the code reads ([fullname], [study_level], [age],
    [valid], [errors]), none of which is an own or inherited property of
    a primitive or of an array. [None] is the TypeError thrown when [o]
    is [undefined] or [null]. *)
Definition get_prop (o : jsval) (k : jstr) : option jsval :=
  match o with
  | JUndef | JNull => None
  | JObj fs => Some (match obj_lookup fs k with Some v => v | None => JUndef end)
  | _ => Some JUndef
  end.

Definition prop (o : jsval) (k : jstr) : jsval :=
  match get_prop o k with Some v => v | None => JUndef end.

(** Optional chaining [o?.k]. *)
Definition opt_prop (o : jsval) (k : jstr) : jsval :=
  match o with JUndef | JNull => JUndef | _ => prop o k end.

(** Nullish coalescing [a ?? b]. *)
Definition nullish (a b : jsval) : jsval :=
  match a with JUndef | JNull => b | _ => a end.

(** [arr.length] and [arr[0]] on the row arrays returned by mysql2. *)
Definition arr_length (v : jsval) : nat :=
  match v with JArr l => List.length l | _ => 0 end.

Definition arr_first (v : jsval) : jsval :=
  match v with JArr (x :: _) => x | _ => JUndef end.

(** ** validateUser (lines 96-111) *)

Definition msg_payload := lit "Payload invalid".
Definition msg_fullname := lit "fullname is required (string min 2 chars)".
Definition msg_study := lit "study_level is required (string)".
Definition msg_age_nan := lit "age is required and must be a number".
Definition msg_age_range := lit "age must be an integer between 0 and 150".

(** [s.trim().length] for a value already known to be a string. *)
Definition trimmed_length (v : jsval) : nat :=
  match v with JStr s => List.length (trim s) | _ => 0 end.

Definition mk_validation (valid : bool) (errors : list jstr) : jsval :=
  JObj [(lit "valid", JBool valid); (lit "errors", JArr (map JStr errors))].

Section Validate.
Context `{JsConv}.

Definition validateUser (userData : jsval) : jsval :=
  if js_falsy userData || negb (String.eqb (typeof userData) "object")
  then mk_validation false [msg_payload]
  else
    let errors := @nil jstr in
    let fullname := prop userData (lit "fullname") in
    let study_level := prop userData (lit "study_level") in
    let age := prop userData (lit "age") in
    let errors :=
      if js_falsy fullname || negb (String.eqb (typeof fullname) "string")
         || Nat.ltb (trimmed_length fullname) 2
      then errors ++ [msg_fullname] else errors in
    let errors :=
      if js_falsy study_level || negb (String.eqb (typeof study_level) "string")
         || Nat.ltb (trimmed_length study_level) 1
      then errors ++ [msg_study] else errors in
    let errors :=
      if js_strict_eq age JUndef || js_strict_eq age JNull
         || Number_isNaN (Number age)
      then errors ++ [msg_age_nan]
      else if negb (Number_isInteger (Number age)) || js_lt age (jnum_z 0)
              || js_lt (jnum_z 150) age
      then errors ++ [msg_age_range]
      else errors in
    mk_validation (Nat.eqb (List.length errors) 0) errors.

End Validate.

(** ** The [users] table (lines 76-83) and [pool.execute] *)

(** One row of [users (uuid VARCHAR(36) PRIMARY KEY, fullname, study_level
    VARCHAR(255) NOT NULL, age INT NOT NULL)]. *)
Record row := mkRow {
  r_uuid : jstr;
  r_fullname : jstr;
  r_study_level : jstr;
  r_age : Z
}.

(** A row as mysql2 returns it: an object with the column names. *)
Definition row_to_js (r : row) : jsval :=
  JObj [(lit "uuid", JStr (r_uuid r)); (lit "fullname", JStr (r_fullname r));
        (lit "study_level", JStr (r_study_level r)); (lit "age", jnum_z (r_age r))].

(** The statements the code sends, with their bound parameters. *)
Inductive stmt :=
| SqlCreateTable
| SqlSelectAll
| SqlSelectByUuid (u : jstr)
| SqlInsert (u f s : jstr) (a : jsnum)
| SqlUpdate (f s : jstr) (a : jsnum) (u : jstr)
| SqlDelete (u : jstr)
| SqlSelect1.

(** Rounding of a bound number into an INT column (half away from zero),
    refused outside the INT range or for NaN and infinities. *)
Definition mysql_round (n d : Z) : Z :=
  let m := (2 * Z.abs n + d) / (2 * d) in
  if Z.ltb n 0 then - m else m.

Definition sql_int (n : jsnum) : option Z :=
  match n with
  | Fin q =>
      let z := mysql_round (Qnum q) (Zpos (Qden q)) in
      if Z.leb (-2147483648) z && Z.leb z 2147483647 then Some z else None
  | _ => None
  end.

(** The errors raised by the server, as error objects with a message. *)
Definition sql_error (msg : string) : jsval :=
  JObj [(lit "message", JStr (lit msg)); (lit "code", JStr (lit "ER"))].

Definition pool_undefined_error : jsval :=
  JObj [(lit "message",
         JStr (lit "Cannot read properties of undefined (reading 'execute')"))].

(** The world a handler runs in: whether the module variable [pool] has
    been assigned, the rows of [users], the failures of the server (the
    [n]-th statement sent fails with the error [e] when [w_fault n =
    Some e]), the statements sent so far, and the log records. *)
Inductive severity := Info | Warn | Error.

Record world := mkWorld {
  w_pool : bool;
  w_store : list row;
  w_fault : nat -> option jsval;
  w_calls : list stmt;
  w_log : list (severity * jsval)
}.

Definition set_store (w : world) (st : list row) : world :=
  mkWorld (w_pool w) st (w_fault w) (w_calls w) (w_log w).
Definition add_call (w : world) (s : stmt) : world :=
  mkWorld (w_pool w) (w_store w) (w_fault w) (w_calls w ++ [s]) (w_log w).
Definition add_log (w : world) (e : severity * jsval) : world :=
  mkWorld (w_pool w) (w_store w) (w_fault w) (w_calls w) (w_log w ++ [e]).

(** A small state and exception monad: a computation either returns or
    throws a JavaScript value. *)
Inductive outcome (A : Type) :=
| Ret (a : A)
| Thr (e : jsval).
Arguments Ret {A} a.
Arguments Thr {A} e.

Definition M (A : Type) := world -> outcome A * world.

Definition ret {A} (a : A) : M A := fun w => (Ret a, w).
Definition throw {A} (e : jsval) : M A := fun w => (Thr e, w).
Definition bind {A B} (c : M A) (k : A -> M B) : M B :=
  fun w => match c w with
           | (Ret a, w') => k a w'
           | (Thr e, w') => (Thr e, w')
           end.

Notation "'let*' x ':=' c 'in' k" := (bind c (fun x => k))
  (at level 61, x name, c at next level, right associativity).

(** *** How mysql2 sends a string, and what a column holds

    A bound string is sent in UTF-8 ([Buffer.from(s, 'utf8')]): a lone
    surrogate code unit becomes U+FFFD. The server reads it back as the
    same well-formed string. *)
Definition is_high (c : N) : bool := N.leb 55296 c && N.leb c 56319.
Definition is_low (c : N) : bool := N.leb 56320 c && N.leb c 57343.
Definition replacement_char : N := 65533.

Fixpoint db_string (s : jstr) : jstr :=
  match s with
  | [] => []
  | c :: t =>
      if is_high c then
        match t with
        | d :: t' => if is_low d then c :: d :: db_string t' else replacement_char :: db_string t
        | [] => [replacement_char]
        end
      else if is_low c then replacement_char :: db_string t
      else c :: db_string t
  end.


(** The number of characters (code points) of a string. *)
Fixpoint char_count (s : jstr) : nat :=
  match s with
  | [] => O
  | c :: t =>
      if is_high c then
        match t with
        | d :: t' => if is_low d then S (char_count t') else S (char_count t)
        | [] => 1%nat
        end
      else S (char_count t)
  end.

(** A [VARCHAR(n)] column of the utf8mb4 table takes the sent string
    when it has at most [n] characters; in strict SQL mode (MySQL's
    default) a longer one is refused. *)
Definition fits (n : nat) (s : jstr) : bool := Nat.leb (char_count (db_string s)) n.

Definition too_long (column : string) : jsval :=
  sql_error ("Data too long for column '" ++ column ++ "' at row 1").

(** The collation of the [uuid] column, which decides [WHERE uuid = ?]
    and the primary key. The CREATE TABLE statement names none, so the
    server's default applies (utf8mb4_0900_ai_ci on MySQL 8: blind to
    case and accents); the model takes any equivalence on stored
    strings. *)
Class Collation := {
  coll_eqb : jstr -> jstr -> bool;
  coll_refl : forall a, coll_eqb a a = true;
  coll_sym : forall a b, coll_eqb a b = coll_eqb b a;
  coll_trans : forall a b c, coll_eqb a b = true -> coll_eqb b c = true -> coll_eqb a c = true
}.

Section Storage.
Context `{Collation}.

(** [WHERE uuid = ?]: the stored key against the sent parameter. *)
Definition has_uuid (u : jstr) (r : row) : bool := coll_eqb (r_uuid r) (db_string u).

(** What the server does with one statement. The values of a written
    row are stored column by column, in the table's order, before the
    primary key is checked; an UPDATE writes only the rows it matches. *)
Definition run_stmt (s : stmt) (st : list row) : outcome jsval * list row :=
  match s with
  | SqlCreateTable => (Ret (JArr []), st)
  | SqlSelectAll => (Ret (JArr (map row_to_js st)), st)
  | SqlSelectByUuid u => (Ret (JArr (map row_to_js (filter (has_uuid u) st))), st)
  | SqlInsert u f s a =>
      if negb (fits 36 u) then (Thr (too_long "uuid"), st)
      else if negb (fits 255 f) then (Thr (too_long "fullname"), st)
      else if negb (fits 255 s) then (Thr (too_long "study_level"), st)
      else match sql_int a with
           | None => (Thr (sql_error "Incorrect integer value for column age"), st)
           | Some z =>
               if existsb (has_uuid u) st
               then (Thr (sql_error "Duplicate entry for key PRIMARY"), st)
               else (Ret (JObj [(lit "affectedRows", jnum_z 1)]),
                     st ++ [mkRow (db_string u) (db_string f) (db_string s) z])
           end
  | SqlUpdate f s a u =>
      if existsb (has_uuid u) st then
        if negb (fits 255 f) then (Thr (too_long "fullname"), st)
        else if negb (fits 255 s) then (Thr (too_long "study_level"), st)
        else match sql_int a with
             | Some z =>
                 (Ret (JObj [(lit "affectedRows",
                              jnum_z (Z.of_nat (List.length (filter (has_uuid u) st))))]),
                  map (fun r => if has_uuid u r
                                then mkRow (r_uuid r) (db_string f) (db_string s) z else r) st)
             | None => (Thr (sql_error "Incorrect integer value for column age"), st)
             end
      else (Ret (JObj [(lit "affectedRows", jnum_z 0)]), st)
  | SqlDelete u =>
      (Ret (JObj [(lit "affectedRows",
                   jnum_z (Z.of_nat (List.length (filter (has_uuid u) st))))]),
       filter (fun r => negb (has_uuid u r)) st)
  | SqlSelect1 => (Ret (JArr [JObj [(lit "1", jnum_z 1)]]), st)
  end.

(** [const [result] = await pool.execute(sql, params)]: with [pool]
    still [undefined] the call throws a TypeError before reaching the
    server; otherwise the statement is sent and either fails or runs. *)
Definition execute (s : stmt) : M jsval :=
  fun w =>
    if negb (w_pool w) then (Thr pool_undefined_error, w)
    else
      let w1 := add_call w s in
      match w_fault w (List.length (w_calls w)) with
      | Some e => (Thr e, w1)
      | None => let (o, st') := run_stmt s (w_store w) in (o, set_store w1 st')
      end.

End Storage.

(** [logInfo], [logWarn], [logError] (lines 41-49). *)
Definition log_record (status : Z) (message context : jsval) : jsval :=
  JObj [(lit "status", jnum_z status); (lit "message", message);
        (lit "context", context)].

Definition log (sev : severity) (status : Z) (message context : jsval) : M unit :=
  fun w => (Ret tt, add_log w (sev, log_record status message context)).

Definition event (name : string) : list (jstr * jsval) :=
  [(lit "event", JStr (lit name))].

(** ** The route handlers (lines 113-210) *)

Record response := mkResp {
  status : Z;
  body : jsval
}.

(** Non-ASCII text of the source: "Utilisateur non trouvé" and the like. *)
Definition e_acute : jstr := [233%N].
Definition a_grave : jstr := [224%N].
Definition msg_not_found : jstr := lit "Utilisateur non trouv" ++ e_acute.
Definition msg_updated : jstr := lit "Utilisateur mis " ++ a_grave ++ lit " jour".
Definition msg_deleted : jstr := lit "Utilisateur supprim" ++ e_acute.

Definition error_body (msg : jstr) : jsval := JObj [(lit "error", JStr msg)].

(** [handleError(res, context, err, status, msg)]: the error's message
    and stack go to the log, the response carries [msg] only. *)
Definition handleError (context : list (jstr * jsval)) (err : jsval)
    (st : Z) (msg : string) : M response :=
  let* _ := log Error st (nullish (opt_prop err (lit "message")) (JStr (lit msg)))
                (JObj (context ++ [(lit "stack", opt_prop err (lit "stack"))])) in
  ret (mkResp st (error_body (lit msg))).

(** [try { c } catch (error) { h(error) }] *)
Definition try_catch {A} (c : M A) (h : jsval -> M A) : M A :=
  fun w => match c w with
           | (Ret a, w') => (Ret a, w')
           | (Thr e, w') => h e w'
           end.

Definition type_error (msg : string) : jsval :=
  JObj [(lit "message", JStr (lit msg))].

(** [const { fullname, study_level, age } = req.body] *)
Definition destructure (b : jsval) : M (jsval * jsval * jsval) :=
  match get_prop b (lit "fullname"), get_prop b (lit "study_level"),
        get_prop b (lit "age") with
  | Some f, Some s, Some a => ret (f, s, a)
  | _, _, _ => throw (type_error "Cannot destructure property of req.body")
  end.

Definition as_string (v : jsval) : option jstr :=
  match v with JStr s => Some s | _ => None end.

(** [v.trim()]: a TypeError unless [v] is a string. *)
Definition call_trim (v : jsval) : M jstr :=
  match as_string v with
  | Some s => ret (trim s)
  | None => throw (type_error "trim is not a function")
  end.

Definition user_fields (f s a : jsval) : jsval :=
  JObj [(lit "fullname", f); (lit "study_level", s); (lit "age", a)].

Definition validation_failed (errors : jsval) : response :=
  mkResp 400 (JObj [(lit "error", JStr (lit "Validation failed")); (lit "details", errors)]).

Section Handlers.
Context `{JsConv} `{coll : Collation}.

(** [GET /api/users] *)
Definition list_users : M response :=
  try_catch
    (let* rows := execute SqlSelectAll in
     let* _ := log Info 200 (JStr (lit "Listing users"))
                 (JObj (event "LIST_USERS" ++ [(lit "endpoint", JStr (lit "/api/users"));
                         (lit "count", jnum_z (Z.of_nat (arr_length rows)))])) in
     ret (mkResp 200 rows))
    (fun error => handleError (event "LIST_USERS_ERROR" ++
                   [(lit "endpoint", JStr (lit "/api/users"))]) error 500 "Unable to list users").

(** [GET /api/users/:uuid] *)
Definition get_user (uuid : jstr) : M response :=
  try_catch
    (let* rows := execute (SqlSelectByUuid uuid) in
     if Nat.eqb (arr_length rows) 0 then
       let* _ := log Warn 404 (JStr msg_not_found)
                   (JObj (event "GET_USER_NOT_FOUND" ++
                         [(lit "uuid", JStr uuid);
                          (lit "endpoint", JStr (lit "/api/users/" ++ uuid))])) in
       ret (mkResp 404 (error_body msg_not_found))
     else
       let* _ := log Info 200 (JStr (lit "Found user"))
                   (JObj (event "GET_USER" ++ [(lit "uuid", JStr uuid)])) in
       ret (mkResp 200 (arr_first rows)))
    (fun error => handleError (event "GET_USER_ERROR" ++
                   [(lit "endpoint", JStr (lit "/api/users/" ++ uuid))]) error 500 "Error fetching user").

(** [POST /api/users]; [uuid] is the value [uuidv4()] returns. *)
Definition create_user (req_body : jsval) (uuid : jstr) : M response :=
  try_catch
    (let* fsa := destructure req_body in
     let '(fullname, study_level, age) := fsa in
     let vr := validateUser (user_fields fullname study_level age) in
     let valid := prop vr (lit "valid") in
     let errors := prop vr (lit "errors") in
     if js_falsy valid then
       let* _ := log Warn 400 (JStr (lit "Validation failed"))
                   (JObj (event "CREATE_USER_VALIDATION_FAILED" ++ [(lit "errors", errors)])) in
       ret (validation_failed errors)
     else
       let* f := call_trim fullname in
       let* s := call_trim study_level in
       let* _ := execute (SqlInsert uuid f s (Number age)) in
       let* f' := call_trim fullname in
       let* s' := call_trim study_level in
       let newUser := JObj [(lit "uuid", JStr uuid); (lit "fullname", JStr f');
                            (lit "study_level", JStr s'); (lit "age", JNum (Number age))] in
       let* _ := log Info 201 (JStr (lit "Utilisateur cr" ++ e_acute ++ e_acute ++ lit " : " ++ f'))
                   (JObj (event "CREATE_USER" ++ [(lit "uuid", JStr uuid)])) in
       ret (mkResp 201 newUser))
    (fun error => handleError (event "CREATE_USER_ERROR") error 500 "Error creating user").

(** [PUT /api/users/:uuid] *)
Definition update_user (uuid : jstr) (req_body : jsval) : M response :=
  try_catch
    (let* fsa := destructure req_body in
     let '(fullname, study_level, age) := fsa in
     let vr := validateUser (user_fields fullname study_level age) in
     let valid := prop vr (lit "valid") in
     let errors := prop vr (lit "errors") in
     if js_falsy valid then
       let* _ := log Warn 400 (JStr (lit "Validation failed on update"))
                   (JObj (event "UPDATE_USER_VALIDATION_FAILED" ++
                          [(lit "uuid", JStr uuid); (lit "errors", errors)])) in
       ret (validation_failed errors)
     else
       let* rows := execute (SqlSelectByUuid uuid) in
       if Nat.eqb (arr_length rows) 0 then
         let* _ := log Warn 404 (JStr (lit "User to update not found"))
                     (JObj (event "UPDATE_USER_NOT_FOUND" ++ [(lit "uuid", JStr uuid)])) in
         ret (mkResp 404 (error_body msg_not_found))
       else
         let* f := call_trim fullname in
         let* s := call_trim study_level in
         let* _ := execute (SqlUpdate f s (Number age) uuid) in
         let* f' := call_trim fullname in
         let* s' := call_trim study_level in
         let updatedUser := JObj [(lit "uuid", JStr uuid); (lit "fullname", JStr f');
                                  (lit "study_level", JStr s'); (lit "age", JNum (Number age))] in
         let* _ := log Info 200 (JStr msg_updated)
                     (JObj (event "UPDATE_USER" ++ [(lit "uuid", JStr uuid)])) in
         ret (mkResp 200 (JObj [(lit "message", JStr msg_updated); (lit "user", updatedUser)])))
    (fun error => handleError (event "UPDATE_USER_ERROR" ++ [(lit "uuid", JStr uuid)])
                   error 500 "Error updating user").

(** [DELETE /api/users/:uuid] *)
Definition delete_user (uuid : jstr) : M response :=
  try_catch
    (let* result := execute (SqlDelete uuid) in
     let affectedRows := nullish (nullish (prop result (lit "affectedRows"))
                                          (prop result (lit "affected_rows"))) (jnum_z 0) in
     if js_strict_eq affectedRows (jnum_z 0) then
       let* _ := log Warn 404 (JStr (lit "User to delete not found"))
                   (JObj (event "DELETE_USER_NOT_FOUND" ++ [(lit "uuid", JStr uuid)])) in
       ret (mkResp 404 (error_body msg_not_found))
     else
       let* _ := log Info 200 (JStr msg_deleted)
                   (JObj (event "DELETE_USER" ++ [(lit "uuid", JStr uuid)])) in
       ret (mkResp 200 (JObj [(lit "message", JStr msg_deleted)])))
    (fun error => handleError (event "DELETE_USER_ERROR" ++ [(lit "uuid", JStr uuid)])
                   error 500 "Error deleting user").

End Handlers.

(** The five operations of [/api/users]. *)
Inductive request :=
| ReqList
| ReqGet (uuid : jstr)
| ReqCreate (req_body : jsval) (generated : jstr)
| ReqUpdate (uuid : jstr) (req_body : jsval)
| ReqDelete (uuid : jstr).

(** The fixed message of each operation's catch block. *)
Definition generic_msg (r : request) : string :=
  match r with
  | ReqList => "Unable to list users"
  | ReqGet _ => "Error fetching user"
  | ReqCreate _ _ => "Error creating user"
  | ReqUpdate _ _ => "Error updating user"
  | ReqDelete _ => "Error deleting user"
  end.

Section Routing.
Context `{JsConv} `{coll : Collation}.

Definition handler (r : request) : M response :=
  match r with
  | ReqList => list_users
  | ReqGet u => get_user u
  | ReqCreate b g => create_user b g
  | ReqUpdate u b => update_user u b
  | ReqDelete u => delete_user u
  end.

(** Routing a request: the handlers catch everything, so the last case
    (the global error handler of lines 224-227) is never reached. *)
Definition route (r : request) (w : world) : response * world :=
  match handler r w with
  | (Ret resp, w') => (resp, w')
  | (Thr _, w') => (mkResp 500 (error_body (lit "Unhandled server error")), w')
  end.

End Routing.

(** ** [GET /health] (lines 212-221) *)

Section Health.
Context `{Collation}.

(** In the catch block [error.message] is read without optional
    chaining: on an [undefined] or [null] error it throws a TypeError. *)
Definition health_check : M response :=
  try_catch
    (let* _ := execute SqlSelect1 in
     let* _ := log Info 200 (JStr (lit "Health check ok")) (JObj (event "HEALTH_CHECK")) in
     ret (mkResp 200 (JObj [(lit "status", JStr (lit "OK"));
                            (lit "database", JStr (lit "connected"))])))
    (fun error =>
       match get_prop error (lit "message") with
       | None =>
           throw (type_error (match error with
                              | JNull => "Cannot read properties of null (reading 'message')"
                              | _ => "Cannot read properties of undefined (reading 'message')"
                              end))
       | Some m =>
           let* _ := log Error 500 m (JObj (event "HEALTH_CHECK_ERROR")) in
           ret (mkResp 500 (JObj [(lit "status", JStr (lit "ERROR"));
                                  (lit "database", JStr (lit "disconnected"))]))
       end).

End Health.

Definition health_ok : response :=
  mkResp 200 (JObj [(lit "status", JStr (lit "OK")); (lit "database", JStr (lit "connected"))]).

Definition health_down : response :=
  mkResp 500 (JObj [(lit "status", JStr (lit "ERROR")); (lit "database", JStr (lit "disconnected"))]).

(** ** The error middlewares (lines 15-21 and 224-227) *)

(** An error passed to [next(err)]: whether it is an [instanceof
    SyntaxError], its [status], whether [body] is one of its properties,
    its [message] and [stack]. *)
Record http_error := mkHttpError {
  he_syntax : bool;
  he_status : jsval;
  he_has_body : bool;
  he_message : jsval;
  he_stack : jsval
}.

(** [app.use((err, req, res, next) => { if (err instanceof SyntaxError &&
    err.status === 400 && 'body' in err) {...} next(err); })]: [None] is
    [next(err)]. *)
Definition json_error_middleware (err : http_error) : M (option response) :=
  if he_syntax err && js_strict_eq (he_status err) (jnum_z 400) && he_has_body err then
    let* _ := log Error 400 (JStr (lit "Malformed JSON in request"))
                (JObj (event "JSON_PARSE_ERROR" ++ [(lit "stack", he_stack err)])) in
    ret (Some (mkResp 400 (error_body (lit "Malformed JSON"))))
  else ret None.

(** The last middleware, the global error handler. *)
Definition global_error_handler (err : http_error) : M response :=
  let* _ := log Error 500 (he_message err)
              (JObj (event "UNHANDLED_ERROR" ++ [(lit "stack", he_stack err)])) in
  ret (mkResp 500 (error_body (lit "Unhandled server error"))).

(** An error raised before the routes (by [express.json()]) goes through
    the error middlewares in their order of registration. *)
Definition error_pipeline (err : http_error) : M response :=
  let* o := json_error_middleware err in
  match o with
  | Some resp => ret resp
  | None => global_error_handler err
  end.

(** A syntax error as [express.json()] raises it on a malformed body. *)
Definition body_parse_error (stack : jsval) : http_error :=
  mkHttpError true (jnum_z 400) true (JStr (lit "Unexpected token")) stack.

(** ** Startup: [initDatabase] (lines 72-94) and [app.listen] (lines 229-237) *)

Inductive startup_event :=
| EvListen                (** [app.listen(PORT, ...)] binds the port *)
| EvAttempt (k : nat)     (** [pool = mysql.createPool(dbConfig)], CREATE TABLE *)
| EvConnected             (** the CREATE TABLE statement succeeded *)
| EvAttemptFailed (k : nat)
| EvSleep (ms : Z)        (** [await new Promise(res => setTimeout(res, delay))] *)
| EvExit (code : Z)       (** [process.exit(code)] *)
| EvServerStarted.        (** the rest of the listen callback *)

Inductive init_end :=
| InitReturned
| InitExited (code : Z).

(** [while (retries) { try { ... return; } catch { retries -= 1; sleep } }
    process.exit(1)], with [attempt k] the outcome of the [k]-th try.
    [fuel] bounds the number of loop iterations unfolded; [None] means
    the loop has not finished within it. *)
Fixpoint init_loop (fuel : nat) (retries delay : Z) (k : nat) (attempt : nat -> bool)
    : list startup_event * option init_end :=
  match fuel with
  | O => ([], None)
  | S fuel' =>
      if Z.eqb retries 0 then ([EvExit 1], Some (InitExited 1))
      else if attempt k then ([EvAttempt k; EvConnected], Some InitReturned)
      else
        let '(tr, e) := init_loop fuel' (retries - 1) delay (S k) attempt in
        (EvAttempt k :: EvAttemptFailed k :: EvSleep delay :: tr, e)
  end.

(** [initDatabase()] with its defaults [retries = 10, delay = 5000]. *)
Definition initDatabase (fuel : nat) (attempt : nat -> bool)
    : list startup_event * option init_end :=
  init_loop fuel 10 5000 0 attempt.

(** The program's startup: [app.listen(PORT, async () => { await
    initDatabase(); ... })]: the listener is opened, then the callback
    runs the connection routine. *)
Definition startup (fuel : nat) (attempt : nat -> bool) : list startup_event :=
  let '(tr, e) := initDatabase fuel attempt in
  EvListen :: tr ++ match e with Some InitReturned => [EvServerStarted] | _ => [] end.

(** ** A concrete instance of the conversions, for evaluating examples *)

Fixpoint digits_value (s : jstr) (acc : Z) : option Z :=
  match s with
  | [] => Some acc
  | c :: r => if N.leb 48 c && N.leb c 57
              then digits_value r (10 * acc + Z.of_N (c - 48)) else None
  end.

(** Decimal integers (with an optional minus sign) after trimming, the
    empty string as 0, anything else NaN. *)
Definition decimal_string_to_number (s : jstr) : jsnum :=
  match trim s with
  | [] => Fin 0
  | 45%N :: (_ :: _) as r =>
      match digits_value r 0 with Some z => Fin (inject_Z (- z)) | None => NaN end
  | (_ :: _) as r =>
      match digits_value r 0 with Some z => Fin (inject_Z z) | None => NaN end
  end.

Fixpoint pos_digits (fuel : nat) (z : Z) (acc : jstr) : jstr :=
  match fuel with
  | O => acc
  | S f => if Z.ltb z 10 then (Z.to_N z + 48)%N :: acc
           else pos_digits f (z / 10) ((Z.to_N (z mod 10) + 48)%N :: acc)
  end.

Definition integer_number_to_string (n : jsnum) : jstr :=
  match n with
  | NaN => lit "NaN"
  | PInf => lit "Infinity"
  | NInf => lit "-Infinity"
  | Fin q =>
      let z := Qnum q / Zpos (Qden q) in
      if Z.ltb z 0 then lit "-" ++ pos_digits 64 (- z) [] else pos_digits 64 z []
  end.

#[export] Instance decimal_conv : JsConv :=
  { StringToNumber := decimal_string_to_number;
    NumberToString := integer_number_to_string }.

Definition healthy : nat -> option jsval := fun _ => None.

Definition world0 (st : list row) : world := mkWorld true st healthy [] [].

Definition john_body : jsval :=
  JObj [(lit "fullname", JStr (lit "John Doe")); (lit "study_level", JStr (lit "Master"));
        (lit "age", jnum_z 25)].

(** A concrete collation: on the ASCII letters, utf8mb4_0900_ai_ci (and
    every [_ci] collation) compares without case; this one folds [A-Z]
    to [a-z]. *)
Definition fold_case (c : N) : N := if N.leb 65 c && N.leb c 90 then c + 32 else c.

Definition ci_eqb (a b : jstr) : bool := jstr_eqb (map fold_case a) (map fold_case b).

(** A body whose fullname has 256 characters. *)
Definition long_body : jsval :=
  JObj [(lit "fullname", JStr (repeat 97%N 256)); (lit "study_level", JStr (lit "Master"));
        (lit "age", jnum_z 25)].


Definition bad_body : jsval :=
  JObj [(lit "fullname", JStr (lit " J ")); (lit "study_level", JNull);
        (lit "age", jnum_z 200)].

Definition neg_age_body : jsval :=
  JObj [(lit "fullname", JStr (lit "Ann Lee")); (lit "study_level", JStr (lit "PhD"));
        (lit "age", jnum_z (-3))].

Definition ann_row : row := mkRow (lit "u1") (lit "Ann Lee") (lit "PhD") 30.

Definition failing_world (msg : string) : world :=
  mkWorld true [] (fun _ => Some (JObj [(lit "message", JStr (lit msg))])) [] [].

Definition unassigned_world : world := mkWorld false [] healthy [] [].

Definition bool_age_body : jsval :=
  JObj [(lit "fullname", JStr (lit "Ann Lee")); (lit "study_level", JStr (lit "PhD"));
        (lit "age", JBool true)].

(** A server whose statements all fail with [null]. *)
Definition null_fault_world : world := mkWorld true [] (fun _ => Some JNull) [] [].

(** ** Vocabulary of the statements *)

Section Vocabulary.
Context `{JsConv} `{coll : Collation}.

Definition fullname_rule (fullname : jsval) : list jstr :=
  if js_falsy fullname || negb (String.eqb (typeof fullname) "string")
     || Nat.ltb (trimmed_length fullname) 2
  then [msg_fullname] else [].

Definition study_level_rule (study_level : jsval) : list jstr :=
  if js_falsy study_level || negb (String.eqb (typeof study_level) "string")
     || Nat.ltb (trimmed_length study_level) 1
  then [msg_study] else [].

Definition age_rule (age : jsval) : list jstr :=
  if js_strict_eq age JUndef || js_strict_eq age JNull || Number_isNaN (Number age)
  then [msg_age_nan]
  else if negb (Number_isInteger (Number age)) || js_lt age (jnum_z 0)
          || js_lt (jnum_z 150) age
  then [msg_age_range] else [].

Definition field_errors (f s a : jsval) : list jstr :=
  fullname_rule f ++ study_level_rule s ++ age_rule a.

Definition string_with_trim_at_least (n : nat) (v : jsval) : Prop :=
  exists s, v = JStr s /\ (n <= List.length (trim s))%nat.

(** The numbers [validateUser] accepts as [age]. *)
Definition age_ok (a : jsval) : Prop :=
  a <> JUndef /\ a <> JNull /\
  exists q, Number a = Fin q /\ q_is_integer q = true /\ (0 <= q)%Q /\ (q <= 150)%Q.

Definition body_errors (b : jsval) : list jstr :=
  field_errors (prop b (lit "fullname")) (prop b (lit "study_level")) (prop b (lit "age")).

(** An [age] whose numeric value is not an integer, is negative or is
    above 150 (NaN is not an integer). *)
Definition age_out_of_contract (a : jsval) : bool :=
  negb (Number_isInteger (Number a)) || num_lt (Number a) (Fin (inject_Z 0))
  || num_lt (Fin (inject_Z 150)) (Number a).

(** [m] contains the word "age". *)
Definition mentions (needle m : jstr) : Prop := exists p q, m = p ++ needle ++ q.

(** The trace of [j] failed attempts starting at attempt [k]. *)
Fixpoint failed_attempts (k j : nat) (delay : Z) : list startup_event :=
  match j with
  | O => []
  | S j' => EvAttempt k :: EvAttemptFailed k :: EvSleep delay :: failed_attempts (S k) j' delay
  end.

(** The first of the attempts [k], ..., [k + n - 1] that succeeds, counted
    from [k]. *)
Fixpoint first_success (attempt : nat -> bool) (k n : nat) : option nat :=
  match n with
  | O => None
  | S n' => if attempt k then Some O else option_map S (first_success attempt (S k) n')
  end.

(** What the loop of [initDatabase] does, stated without the loop. *)
Definition init_outcome (attempt : nat -> bool) (retries : nat) (delay : Z)
    : list startup_event * option init_end :=
  match first_success attempt 0 retries with
  | Some j => (failed_attempts 0 j delay ++ [EvAttempt j; EvConnected], Some InitReturned)
  | None => (failed_attempts 0 retries delay ++ [EvExit 1], Some (InitExited 1))
  end.

(** The claim that the listener opens only once storage is ready and is
    never opened on the path where the retries are exhausted. *)
Definition listener_after_storage : Prop :=
  (forall fuel attempt pre post,
      startup fuel attempt = pre ++ EvListen :: post -> In EvConnected pre) /\
  (forall fuel attempt,
      In (EvExit 1) (startup fuel attempt) -> ~ In EvListen (startup fuel attempt)).

(** The shape of the rows create and update are meant to write. *)
Definition row_ok (r : row) : Prop :=
  trim (r_fullname r) = r_fullname r /\ (2 <= List.length (r_fullname r))%nat /\
  trim (r_study_level r) = r_study_level r /\ (1 <= List.length (r_study_level r))%nat /\
  0 <= r_age r <= 150.

Definition store_ok (st : list row) : Prop := Forall row_ok st.

(** Statements whose written values have that shape. *)
Definition stmt_ok (s : stmt) : Prop :=
  match s with
  | SqlInsert _ f sl a | SqlUpdate f sl a _ =>
      trim f = f /\ (2 <= List.length f)%nat /\ trim sl = sl /\ (1 <= List.length sl)%nat /\
      exists q, a = Fin q /\ q_is_integer q = true /\ (0 <= q)%Q /\ (q <= 150)%Q
  | _ => True
  end.

(** The world after a sequence of requests. *)
Fixpoint run_requests (rs : list request) (w : world) : world :=
  match rs with
  | [] => w
  | r :: rs' => run_requests rs' (snd (route r w))
  end.

Definition valid_body (b : jsval) : Prop :=
  b <> JUndef /\ b <> JNull /\ body_errors b = [].

Definition js_trim (v : jsval) : jsval :=
  match v with JStr s => JStr (trim s) | _ => v end.

Definition normalized_user (u : jstr) (b : jsval) : jsval :=
  JObj [(lit "uuid", JStr u); (lit "fullname", js_trim (prop b (lit "fullname")));
        (lit "study_level", js_trim (prop b (lit "study_level")));
        (lit "age", JNum (Number (prop b (lit "age"))))].




(** The trimmed text fields of a body fit their [VARCHAR(255)] columns. *)
Definition body_fits (b : jsval) : bool :=
  match prop b (lit "fullname"), prop b (lit "study_level") with
  | JStr f, JStr s => fits 255 (trim f) && fits 255 (trim s)
  | _, _ => false
  end.


(** No two stored keys are equal for the collation: the primary key. *)
Definition keys_unique (st : list row) : Prop :=
  ForallOrdPairs (fun r1 r2 => coll_eqb (r_uuid r1) (r_uuid r2) = false) st.

Definition faulted (w w' : world) : Prop :=
  exists i, (List.length (w_calls w) <= i < List.length (w_calls w'))%nat /\ w_fault w i <> None.

Definition same_but_errors (w1 w2 : world) : Prop :=
  w_pool w1 = w_pool w2 /\ w_store w1 = w_store w2 /\ w_calls w1 = w_calls w2 /\
  forall i, (w_fault w1 i = None <-> w_fault w2 i = None).

Definition generic_error (r : request) : response :=
  mkResp 500 (error_body (lit (generic_msg r))).

End Vocabulary.

(** Two computations agree on their answers and on the worlds they leave
    up to the error values raised by the storage and the log. *)
Definition orel {A} (o1 o2 : outcome A) : Prop :=
  match o1, o2 with
  | Ret a, Ret b => a = b
  | Thr _, Thr _ => True
  | _, _ => False
  end.

Definition sim2 {A} (c1 c2 : M A) : Prop :=
  forall w1 w2, same_but_errors w1 w2 ->
  orel (fst (c1 w1)) (fst (c2 w2)) /\ same_but_errors (snd (c1 w1)) (snd (c2 w2)).

(** Weakest preconditions in the monad. *)
Definition wp {A} (c : M A) (Q : outcome A -> world -> Prop) (w : world) : Prop :=
  Q (fst (c w)) (snd (c w)).


(** No two rows share a [uuid]. *)
Definition uuids_unique (st : list row) : Prop := NoDup (map r_uuid st).

(** * Properties *)

(** ** Field rules of [validateUser], one per field *)

Section Rules.
Context `{JsConv} `{coll : Collation}.

Lemma validateUser_object (userData : jsval) :
  js_falsy userData = false -> typeof userData = "object"%string ->
  validateUser userData =
  mk_validation (Nat.eqb (List.length (field_errors (prop userData (lit "fullname"))
                            (prop userData (lit "study_level")) (prop userData (lit "age")))) 0)
                (field_errors (prop userData (lit "fullname"))
                   (prop userData (lit "study_level")) (prop userData (lit "age"))).
Proof.
  intros Hf Ht. unfold validateUser. rewrite Hf, Ht. simpl.
  unfold field_errors, fullname_rule, study_level_rule, age_rule.
  set (f := prop userData (lit "fullname")).
  set (s := prop userData (lit "study_level")).
  set (a := prop userData (lit "age")).
  destruct (js_falsy f || _ || _); destruct (js_falsy s || _ || _);
    destruct (js_strict_eq a JUndef || _ || _); try destruct (negb _ || _ || _);
    reflexivity.
Qed.

Lemma prop_user_fields (f s a : jsval) :
  prop (user_fields f s a) (lit "fullname") = f /\
  prop (user_fields f s a) (lit "study_level") = s /\
  prop (user_fields f s a) (lit "age") = a.
Proof. repeat split; reflexivity. Qed.

Lemma validateUser_user_fields (f s a : jsval) :
  validateUser (user_fields f s a) =
  mk_validation (Nat.eqb (List.length (field_errors f s a)) 0) (field_errors f s a).
Proof. rewrite validateUser_object by reflexivity. reflexivity. Qed.

Lemma valid_flag (f s a : jsval) :
  prop (validateUser (user_fields f s a)) (lit "valid")
  = JBool (Nat.eqb (List.length (field_errors f s a)) 0) /\
  prop (validateUser (user_fields f s a)) (lit "errors")
  = JArr (map JStr (field_errors f s a)).
Proof. rewrite validateUser_user_fields. split; reflexivity. Qed.

End Rules.

(** ** What each rule accepts *)

Section RuleFacts.
Context `{JsConv} `{coll : Collation}.

Lemma js_lt_num_right (a : jsval) (z : Z) :
  js_lt a (jnum_z z) = num_lt (Number a) (Fin (inject_Z z)).
Proof. unfold js_lt, Number. destruct (ToPrimitive a); reflexivity. Qed.

Lemma js_lt_num_left (a : jsval) (z : Z) :
  js_lt (jnum_z z) a = num_lt (Fin (inject_Z z)) (Number a).
Proof. unfold js_lt, Number. destruct (ToPrimitive a); reflexivity. Qed.

Lemma fullname_rule_nil (f : jsval) :
  fullname_rule f = [] -> string_with_trim_at_least 2 f.
Proof.
  unfold fullname_rule.
  destruct f as [| |b|n|str|l|fs]; simpl; intro Hr;
    try destruct b; try destruct n; try destruct (q_is_zero _); try discriminate Hr.
  destruct str as [|c r]; simpl in Hr; try discriminate Hr.
  destruct (Nat.ltb _ 2) eqn:E; simpl in Hr; try discriminate Hr.
  exists (c :: r). split; [reflexivity|].
  apply Nat.ltb_ge in E. exact E.
Qed.

Lemma study_level_rule_nil (s : jsval) :
  study_level_rule s = [] -> string_with_trim_at_least 1 s.
Proof.
  unfold study_level_rule.
  destruct s as [| |b|n|str|l|fs]; simpl; intro Hr;
    try destruct b; try destruct n; try destruct (q_is_zero _); try discriminate Hr.
  destruct str as [|c r]; simpl in Hr; try discriminate Hr.
  destruct (Nat.ltb _ 1) eqn:E; simpl in Hr; try discriminate Hr.
  exists (c :: r). split; [reflexivity|].
  apply Nat.ltb_ge in E. exact E.
Qed.

Lemma age_rule_nil (a : jsval) : age_rule a = [] -> age_ok a.
Proof.
  unfold age_rule. rewrite js_lt_num_right, js_lt_num_left. intro Hr.
  destruct (js_strict_eq a JUndef) eqn:E1; [discriminate Hr|].
  destruct (js_strict_eq a JNull) eqn:E2; [discriminate Hr|].
  simpl in Hr.
  destruct (Number a) as [| | |q] eqn:En; simpl in Hr; try discriminate Hr.
  destruct (q_is_integer q) eqn:Ei; simpl in Hr; try discriminate Hr.
  destruct (Qle_bool (inject_Z 0) q) eqn:E0; simpl in Hr; try discriminate Hr.
  destruct (Qle_bool q (inject_Z 150)) eqn:E150; simpl in Hr; try discriminate Hr.
  split; [intro; subst; discriminate|].
  split; [intro; subst; discriminate|].
  exists q. repeat split; try assumption.
  - apply Qle_bool_iff. exact E0.
  - apply Qle_bool_iff. exact E150.
Qed.

Lemma field_errors_nil (f s a : jsval) :
  field_errors f s a = [] ->
  fullname_rule f = [] /\ study_level_rule s = [] /\ age_rule a = [].
Proof.
  unfold field_errors. intro E.
  apply app_eq_nil in E as [E1 E]. apply app_eq_nil in E as [E2 E3]. auto.
Qed.

Lemma length_zero_nil {A} (l : list A) : Nat.eqb (List.length l) 0 = true -> l = [].
Proof. destruct l; simpl; [reflexivity|discriminate]. Qed.

End RuleFacts.

(** ** Handlers on a body that fails validation *)

Section InvalidBody.
Context `{JsConv} `{coll : Collation}.

Lemma get_prop_defined (o : jsval) (k : jstr) :
  o <> JUndef -> o <> JNull -> get_prop o k = Some (prop o k).
Proof. intros H1 H2. unfold prop. destruct o; try reflexivity; contradiction. Qed.

Lemma create_user_invalid (b : jsval) (g : jstr) (w : world) :
  b <> JUndef -> b <> JNull -> body_errors b <> [] ->
  route (ReqCreate b g) w =
  (validation_failed (JArr (map JStr (body_errors b))),
   add_log w (Warn, log_record 400 (JStr (lit "Validation failed"))
                 (JObj (event "CREATE_USER_VALIDATION_FAILED" ++
                        [(lit "errors", JArr (map JStr (body_errors b)))])))).
Proof.
  intros H1 H2 Hne. unfold route, handler, create_user, try_catch, bind, destructure.
  rewrite !get_prop_defined by assumption. unfold ret at 1.
  destruct (valid_flag (prop b (lit "fullname")) (prop b (lit "study_level"))
              (prop b (lit "age"))) as [-> ->].
  fold (body_errors b).
  destruct (Nat.eqb (List.length (body_errors b)) 0) eqn:E.
  - apply length_zero_nil in E. contradiction.
  - reflexivity.
Qed.

Lemma update_user_invalid (u : jstr) (b : jsval) (w : world) :
  b <> JUndef -> b <> JNull -> body_errors b <> [] ->
  route (ReqUpdate u b) w =
  (validation_failed (JArr (map JStr (body_errors b))),
   add_log w (Warn, log_record 400 (JStr (lit "Validation failed on update"))
                 (JObj (event "UPDATE_USER_VALIDATION_FAILED" ++
                        [(lit "uuid", JStr u); (lit "errors", JArr (map JStr (body_errors b)))])))).
Proof.
  intros H1 H2 Hne. unfold route, handler, update_user, try_catch, bind, destructure.
  rewrite !get_prop_defined by assumption. unfold ret at 1.
  destruct (valid_flag (prop b (lit "fullname")) (prop b (lit "study_level"))
              (prop b (lit "age"))) as [-> ->].
  fold (body_errors b).
  destruct (Nat.eqb (List.length (body_errors b)) 0) eqn:E.
  - apply length_zero_nil in E. contradiction.
  - reflexivity.
Qed.

End InvalidBody.

Section AgeFacts.
Context `{JsConv} `{coll : Collation}.

Lemma age_rule_out (a : jsval) :
  age_out_of_contract a = true ->
  age_rule a = [msg_age_nan] \/ age_rule a = [msg_age_range].
Proof.
  unfold age_out_of_contract, age_rule. rewrite js_lt_num_right, js_lt_num_left.
  intro Hb. destruct (_ || _ || Number_isNaN _); [left; reflexivity|].
  rewrite Hb. right; reflexivity.
Qed.

Lemma age_messages_mention_age :
  mentions (lit "age") msg_age_nan /\ mentions (lit "age") msg_age_range.
Proof.
  split; exists []; eexists; reflexivity.
Qed.

End AgeFacts.

(** ** Claims about validation *)

Section ValidationClaims.
Context `{JsConv} `{coll : Collation}.

(** C4: on an object, [validateUser] applies the three field rules, each
    to its own field, keeps every violation and lists them in the order
    fullname, study_level, age; create and update answer 400 with exactly
    that list as [details]. *)
Theorem validateUser_collects_all_violations
    (userData b : jsval) (g u : jstr) (w : world) :
  js_falsy userData = false -> typeof userData = "object"%string ->
  b <> JUndef -> b <> JNull ->
  (let errors := fullname_rule (prop userData (lit "fullname"))
                 ++ study_level_rule (prop userData (lit "study_level"))
                 ++ age_rule (prop userData (lit "age")) in
   validateUser userData = mk_validation (Nat.eqb (List.length errors) 0) errors) /\
  (body_errors b <> [] ->
   fst (route (ReqCreate b g) w) = mkResp 400
     (JObj [(lit "error", JStr (lit "Validation failed"));
            (lit "details", JArr (map JStr (body_errors b)))]) /\
   fst (route (ReqUpdate u b) w) = mkResp 400
     (JObj [(lit "error", JStr (lit "Validation failed"));
            (lit "details", JArr (map JStr (body_errors b)))])).
Proof.
  intros Hf Ht H1 H2. split.
  - rewrite validateUser_object by assumption. reflexivity.
  - intro Hne. rewrite create_user_invalid, update_user_invalid by assumption.
    split; reflexivity.
Qed.

(** C5: when the numeric value of [age] is not an integer, is negative or
    exceeds 150, create and update both answer 400 and the error list
    holds a message containing "age". *)
Theorem bad_age_rejected_by_create_and_update
    (b : jsval) (g u : jstr) (w : world) :
  b <> JUndef -> b <> JNull -> age_out_of_contract (prop b (lit "age")) = true ->
  exists m, In m (body_errors b) /\ mentions (lit "age") m /\
    status (fst (route (ReqCreate b g) w)) = 400 /\
    status (fst (route (ReqUpdate u b) w)) = 400 /\
    body (fst (route (ReqCreate b g) w)) = body (validation_failed (JArr (map JStr (body_errors b)))) /\
    body (fst (route (ReqUpdate u b) w)) = body (validation_failed (JArr (map JStr (body_errors b)))).
Proof.
  intros H1 H2 Ha.
  destruct age_messages_mention_age as [Mn Mr].
  assert (Hin : exists m, In m (body_errors b) /\ mentions (lit "age") m).
  { unfold body_errors, field_errors.
    destruct (age_rule_out _ Ha) as [E|E]; rewrite E.
    - exists msg_age_nan. split; [apply in_or_app; right; apply in_or_app; right; left; reflexivity|exact Mn].
    - exists msg_age_range. split; [apply in_or_app; right; apply in_or_app; right; left; reflexivity|exact Mr]. }
  destruct Hin as [m [Hm Hmen]].
  assert (Hne : body_errors b <> []) by (intro E; rewrite E in Hm; destruct Hm).
  exists m. rewrite create_user_invalid, update_user_invalid by assumption.
  repeat split; assumption.
Qed.

(** C6: an update (or create) whose body fails validation is answered
    400 whatever the store holds: no statement is sent (no existence
    lookup, no write) and the rows are unchanged. *)
Theorem validation_precedes_storage (u g : jstr) (b : jsval) (w : world) :
  b <> JUndef -> b <> JNull -> body_errors b <> [] ->
  (let '(resp, w') := route (ReqUpdate u b) w in
   status resp = 400 /\ w_store w' = w_store w /\ w_calls w' = w_calls w /\
   forall w2, fst (route (ReqUpdate u b) w2) = resp) /\
  (let '(resp, w') := route (ReqCreate b g) w in
   status resp = 400 /\ w_store w' = w_store w /\ w_calls w' = w_calls w /\
   forall w2, fst (route (ReqCreate b g) w2) = resp).
Proof.
  intros H1 H2 Hne.
  rewrite update_user_invalid, create_user_invalid by assumption.
  split; (repeat split; [intro w2]);
    first [rewrite update_user_invalid by assumption
          | rewrite create_user_invalid by assumption]; reflexivity.
Qed.

End ValidationClaims.

(** ** The startup sequence *)

Lemma first_success_spec (attempt : nat -> bool) (n k j : nat) :
  first_success attempt k n = Some j ->
  (j < n)%nat /\ attempt (k + j)%nat = true /\ forall i, (i < j)%nat -> attempt (k + i)%nat = false.
Proof.
  revert k j. induction n as [|n IH]; intros k j E; simpl in E; [discriminate|].
  destruct (attempt k) eqn:Ek.
  - injection E as <-. rewrite Nat.add_0_r. repeat split; [lia|assumption|intros; lia].
  - destruct (first_success attempt (S k) n) as [j'|] eqn:E'; simpl in E; [|discriminate].
    injection E as <-. destruct (IH _ _ E') as [Hlt [Hs Hf]].
    repeat split; [lia| rewrite <- Hs; f_equal; lia |].
    intros i Hi. destruct i as [|i]; [rewrite Nat.add_0_r; exact Ek|].
    replace (k + S i)%nat with (S k + i)%nat by lia. apply Hf. lia.
Qed.

Lemma init_loop_closed (attempt : nat -> bool) (delay : Z) (n fuel k : nat) :
  (n < fuel)%nat ->
  init_loop fuel (Z.of_nat n) delay k attempt =
  match first_success attempt k n with
  | Some j => (failed_attempts k j delay ++ [EvAttempt (k + j); EvConnected], Some InitReturned)
  | None => (failed_attempts k n delay ++ [EvExit 1], Some (InitExited 1))
  end.
Proof.
  revert fuel k. induction n as [|n IH]; intros fuel k Hf;
    (destruct fuel as [|fuel]; [lia|]); cbn [init_loop first_success].
  - reflexivity.
  - replace (Z.of_nat (S n) =? 0) with false by (symmetry; apply Z.eqb_neq; lia).
    destruct (attempt k).
    + rewrite Nat.add_0_r. reflexivity.
    + replace (Z.of_nat (S n) - 1) with (Z.of_nat n) by lia.
      rewrite (IH fuel (S k)) by lia.
      destruct (first_success attempt (S k) n); simpl;
        [replace (k + S n0)%nat with (S k + n0)%nat by lia|]; reflexivity.
Qed.

(** ** Weakest preconditions for the handler monad *)

Section WP.
Context `{coll : Collation} {A B : Type}.

Lemma wp_ret (a : A) Q w : Q (Ret a) w -> wp (ret a) Q w.
Proof. exact (fun H => H). Qed.

Lemma wp_throw (e : jsval) (Q : outcome A -> world -> Prop) w :
  Q (Thr e) w -> wp (throw e) Q w.
Proof. exact (fun H => H). Qed.

Lemma wp_bind (c : M A) (k : A -> M B) Q w :
  wp c (fun o w' => match o with
                    | Ret a => wp (k a) Q w'
                    | Thr e => Q (Thr e) w'
                    end) w ->
  wp (bind c k) Q w.
Proof. unfold wp, bind. destruct (c w) as [[a|e] w']; exact (fun H => H). Qed.

Lemma wp_try (c : M A) (h : jsval -> M A) Q w :
  wp c (fun o w' => match o with
                    | Ret a => Q (Ret a) w'
                    | Thr e => wp (h e) Q w'
                    end) w ->
  wp (try_catch c h) Q w.
Proof. unfold wp, try_catch. destruct (c w) as [[a|e] w']; exact (fun H => H). Qed.

Lemma wp_log sev st m ctx (Q : outcome unit -> world -> Prop) w :
  Q (Ret tt) (add_log w (sev, log_record st m ctx)) -> wp (log sev st m ctx) Q w.
Proof. exact (fun H => H). Qed.

Lemma wp_execute (s : stmt) (Q : outcome jsval -> world -> Prop) w :
  (w_pool w = false -> Q (Thr pool_undefined_error) w) ->
  (w_pool w = true -> forall e, w_fault w (List.length (w_calls w)) = Some e ->
   Q (Thr e) (add_call w s)) ->
  (w_pool w = true -> w_fault w (List.length (w_calls w)) = None ->
   Q (fst (run_stmt s (w_store w))) (set_store (add_call w s) (snd (run_stmt s (w_store w))))) ->
  wp (execute s) Q w.
Proof.
  unfold wp, execute. intros Hn Hf Hok.
  destruct (w_pool w) eqn:Hp; simpl; [|apply Hn; reflexivity].
  destruct (w_fault w (List.length (w_calls w))) as [e|] eqn:Hfe.
  - apply Hf; auto.
  - specialize (Hok eq_refl eq_refl). destruct (run_stmt s (w_store w)); exact Hok.
Qed.

Lemma wp_mono (c : M A) (Q Q' : outcome A -> world -> Prop) w :
  (forall o w', Q o w' -> Q' o w') -> wp c Q w -> wp c Q' w.
Proof. unfold wp. auto. Qed.

End WP.

(** Walks a handler from its first statement, leaving the steps that
    need a case analysis ([execute], and the tests on values). *)
Ltac wp_step :=
  match goal with
  | |- wp (try_catch _ _) _ _ => apply wp_try
  | |- wp (bind _ _) _ _ => apply wp_bind
  | |- wp (ret _) _ _ => apply wp_ret
  | |- wp (throw _) _ _ => apply wp_throw
  | |- wp (log _ _ _ _) _ _ => apply wp_log
  | |- wp (handleError _ _ _ _) _ _ => unfold handleError
  | |- wp (call_trim _) _ _ => unfold call_trim
  | |- wp (destructure _) _ _ => unfold destructure
  end; cbv beta iota.

Ltac wp_walk := repeat wp_step.

Ltac wp_case :=
  match goal with
  | |- wp (match ?x with _ => _ end) _ _ => destruct x eqn:?
  | |- wp (if ?x then _ else _) _ _ => destruct x eqn:?
  end; cbv beta iota.

Section RouteWP.
Context `{JsConv} `{coll : Collation}.

Lemma route_wp (r : request) (P : response -> world -> Prop) (w : world) :
  wp (handler r) (fun o w' => match o with Ret resp => P resp w' | Thr _ => False end) w ->
  P (fst (route r w)) (snd (route r w)).
Proof. unfold wp, route. destruct (handler r w) as [[resp|e] w']; simpl; tauto. Qed.

End RouteWP.

(** ** Requests served before [pool] is assigned *)

Section PoolUnset.
Context `{JsConv} `{coll : Collation}.

Lemma route_pool_unset (r : request) (w : world) :
  w_pool w = false ->
  (status (fst (route r w)) = 400 \/ status (fst (route r w)) = 500) /\
  w_store (snd (route r w)) = w_store w.
Proof.
  intro Hp. apply route_wp.
  destruct r as [|u|b g|u b|u]; simpl handler;
    [unfold list_users|unfold get_user|unfold create_user|unfold update_user|unfold delete_user];
    repeat first
      [ wp_step
      | wp_case
      | apply wp_execute; cbn [w_pool add_log add_call set_store];
        [ intros _ | intros; congruence | intros; congruence ] ];
    cbn; auto.
Qed.

End PoolUnset.

(** ** Claims about startup *)

(** C9: for every sequence of attempt outcomes the connection routine
    ends: attempt [j] is made only after [j] failures, each followed by a
    5000 ms sleep; it returns right after the first successful attempt
    among the first 10, and after 10 failures it calls
    [process.exit(1)]. [fuel] only bounds the unfolding of the loop. *)
Theorem initDatabase_terminates (attempt : nat -> bool) (fuel : nat) :
  (10 < fuel)%nat ->
  initDatabase fuel attempt = init_outcome attempt 10 5000 /\
  (forall j, first_success attempt 0 10 = Some j ->
   (j < 10)%nat /\ attempt j = true /\ forall i, (i < j)%nat -> attempt i = false).
Proof.
  intro Hf. split.
  - unfold initDatabase, init_outcome. change 10 with (Z.of_nat 10).
    rewrite init_loop_closed by exact Hf. reflexivity.
  - intros j Hj. exact (first_success_spec attempt 10 0 j Hj).
Qed.

(** C1, as stated: refuted. When every attempt fails, the listener has
    been opened before the process exits. *)
Lemma listener_opened_on_failed_startup : ~ listener_after_storage.
Proof.
  intros [_ H2].
  assert (E : startup 11%nat (fun _ => false) =
              EvListen :: failed_attempts 0 10 5000 ++ [EvExit 1]) by reflexivity.
  apply (H2 11%nat (fun _ => false)); rewrite E.
  - right. apply in_or_app. right. left. reflexivity.
  - left. reflexivity.
Qed.

Section StartupClaims.
Context `{JsConv} `{coll : Collation}.

(** C1, amended: the listener is opened first and only once, before the
    connection routine runs; when all 10 attempts fail the trace ends with
    [process.exit(1)] after the listener was opened; a request routed
    while [pool] is still unassigned is answered 400 (validation) or 500
    and leaves the rows unchanged. *)
Theorem listener_opens_before_storage (fuel : nat) (attempt : nat -> bool)
    (r : request) (w : world) :
  (10 < fuel)%nat -> w_pool w = false ->
  (exists tr, startup fuel attempt = EvListen :: tr /\ ~ In EvListen tr /\
     (first_success attempt 0 10 = None -> exists pre, tr = pre ++ [EvExit 1])) /\
  (status (fst (route r w)) = 400 \/ status (fst (route r w)) = 500) /\
  w_store (snd (route r w)) = w_store w.
Proof.
  intros Hf Hp. split; [|exact (route_pool_unset r w Hp)].
  assert (Hi : initDatabase fuel attempt = init_outcome attempt 10 5000).
  { unfold initDatabase. change 10 with (Z.of_nat 10).
    rewrite init_loop_closed by exact Hf. reflexivity. }
  unfold startup. rewrite Hi. unfold init_outcome.
  assert (Hno : forall k j, ~ In EvListen (failed_attempts k j 5000)).
  { intros k j. revert k. induction j as [|j IH]; intros k; simpl; [tauto|].
    intros [E|[E|[E|E]]]; try discriminate. exact (IH _ E). }
  destruct (first_success attempt 0 10) as [j|] eqn:Ej.
  - eexists. split; [reflexivity|]. split; [|discriminate].
    rewrite <- app_assoc. intro Hin. apply in_app_or in Hin as [Hin|Hin].
    + exact (Hno _ _ Hin).
    + simpl in Hin. intuition discriminate.
  - eexists. split; [reflexivity|]. split.
    + rewrite app_nil_r. intro Hin. apply in_app_or in Hin as [Hin|Hin].
      * exact (Hno _ _ Hin).
      * simpl in Hin. intuition discriminate.
    + intros _. exists (failed_attempts 0 10 5000). rewrite app_nil_r. reflexivity.
Qed.

End StartupClaims.

(** ** [trim] and the INT column *)

Lemma trim_start_idem (s : jstr) : trim_start (trim_start s) = trim_start s.
Proof.
  induction s as [|c s IH]; simpl; [reflexivity|].
  destruct (is_ws c) eqn:E; [exact IH|]. simpl. rewrite E. reflexivity.
Qed.

Lemma trim_start_head (s : jstr) :
  trim_start s = [] \/ exists c r, trim_start s = c :: r /\ is_ws c = false.
Proof.
  induction s as [|c s IH]; simpl; [left; reflexivity|].
  destruct (is_ws c) eqn:E; [exact IH|]. right. exists c, s. auto.
Qed.

Lemma trim_start_snoc_nonws (x : jstr) (c : N) :
  is_ws c = false -> exists y, trim_start (x ++ [c]) = y ++ [c].
Proof.
  intro Hc. induction x as [|a x IH]; simpl.
  - rewrite Hc. exists []. reflexivity.
  - destruct (is_ws a); [exact IH|]. exists (a :: x). reflexivity.
Qed.

Lemma trim_idem (s : jstr) : trim (trim s) = trim s.
Proof.
  unfold trim, trim_end.
  destruct (trim_start_head s) as [E|[c [r [E Hc]]]]; rewrite E; [reflexivity|].
  simpl. destruct (trim_start_snoc_nonws (rev r) c Hc) as [y Ey]. rewrite Ey.
  rewrite rev_app_distr. simpl. rewrite Hc.
  change (rev (c :: rev y)) with (rev (rev y) ++ [c]). rewrite rev_involutive.
  rewrite <- Ey, trim_start_idem, Ey, rev_app_distr. reflexivity.
Qed.

Lemma trim_length_le (s : jstr) : (List.length (trim s) <= List.length s)%nat.
Proof.
  assert (Hs : forall x, (List.length (trim_start x) <= List.length x)%nat).
  { induction x as [|c x IH]; simpl; [lia|]. destruct (is_ws c); simpl; lia. }
  unfold trim, trim_end. rewrite length_rev.
  specialize (Hs (rev (trim_start s))). rewrite length_rev in Hs.
  pose proof (Hs0 := trim_start s). etransitivity; [exact Hs|].
  clear. induction s as [|c s IH]; simpl; [lia|]. destruct (is_ws c); simpl; lia.
Qed.

Lemma sql_int_integer (q : Q) :
  q_is_integer q = true -> (0 <= q)%Q -> (q <= 150)%Q ->
  exists z, sql_int (Fin q) = Some z /\ 0 <= z <= 150 /\ (inject_Z z == q)%Q.
Proof.
  destruct q as [n d]. unfold q_is_integer, Qle, Qeq, inject_Z. simpl.
  intros Hi H0 H150. apply Z.eqb_eq in Hi.
  apply Z.mod_divide in Hi; [|lia]. destruct Hi as [k Hk]. subst n.
  assert (Hk0 : 0 <= k) by nia.
  assert (Hk150 : k <= 150) by nia.
  assert (Hm : mysql_round (k * Z.pos d) (Z.pos d) = k).
  { unfold mysql_round. rewrite Z.abs_eq by nia.
    replace (2 * (k * Z.pos d) + Z.pos d) with (k * (2 * Z.pos d) + Z.pos d) by ring.
    rewrite Z.div_add_l by lia. rewrite Z.div_small by lia.
    replace (k * Z.pos d <? 0) with false by (symmetry; apply Z.ltb_ge; nia). lia. }
  unfold sql_int.
  change (mysql_round (Qnum (k * Z.pos d # d)) (Z.pos (Qden (k * Z.pos d # d))))
    with (mysql_round (k * Z.pos d) (Z.pos d)).
  rewrite Hm.
  replace ((-2147483648 <=? k) && (k <=? 2147483647))%bool with true
    by (symmetry; apply andb_true_intro; split; apply Z.leb_le; lia).
  exists k. repeat split; try lia.
Qed.

(** ** What a column keeps of a sent string *)

Lemma surrogates_not_ws :
  forallb (fun k => negb (is_ws (55296 + N.of_nat k))) (seq 0 2048) = true.
Proof. vm_compute. reflexivity. Qed.

Lemma surrogate_not_ws (c : N) : is_high c || is_low c = true -> is_ws c = false.
Proof.
  unfold is_high, is_low. intro E.
  assert (Hr : (55296 <= c <= 57343)%N).
  { apply orb_prop in E as [E|E]; apply andb_prop in E as [E1 E2];
      apply N.leb_le in E1; apply N.leb_le in E2; lia. }
  pose proof (proj1 (forallb_forall _ _) surrogates_not_ws (N.to_nat (c - 55296))) as Hk.
  cbv beta in Hk.
  replace (55296 + N.of_nat (N.to_nat (c - 55296)))%N with c in Hk by lia.
  apply negb_true_iff, Hk, in_seq. lia.
Qed.

Definition same_ws (c d : N) : Prop := is_ws c = is_ws d.

Lemma same_ws_fffd (c : N) : is_high c || is_low c = true -> same_ws c replacement_char.
Proof. intro E. unfold same_ws. rewrite surrogate_not_ws by exact E. reflexivity. Qed.

(** Each code unit is kept or replaced by U+FFFD, and only surrogates are
    replaced. *)
Lemma db_string_same_ws (s : jstr) : Forall2 same_ws s (db_string s).
Proof.
  remember (List.length s) as n eqn:En. revert s En.
  induction n as [n IH] using lt_wf_ind. intros [|c t] En; simpl; [constructor|].
  assert (Ht : forall t', (List.length t' < n)%nat -> Forall2 same_ws t' (db_string t'))
    by (intros t' Hl; exact (IH _ Hl t' eq_refl)).
  simpl in En.
  destruct (is_high c) eqn:Eh.
  - destruct t as [|d t'].
    + constructor; [apply same_ws_fffd; rewrite Eh; reflexivity|constructor].
    + simpl in En. destruct (is_low d) eqn:El.
      * constructor; [reflexivity|]. constructor; [reflexivity|]. apply Ht. lia.
      * constructor; [apply same_ws_fffd; rewrite Eh; reflexivity|]. apply Ht. simpl. lia.
  - destruct (is_low c) eqn:El.
    + constructor; [apply same_ws_fffd; rewrite El, orb_true_r; reflexivity|]. apply Ht. lia.
    + constructor; [reflexivity|]. apply Ht. lia.
Qed.

Lemma db_string_length (s : jstr) : List.length (db_string s) = List.length s.
Proof. symmetry. exact (Forall2_length (db_string_same_ws s)). Qed.

Lemma trim_start_length_le (s : jstr) : (List.length (trim_start s) <= List.length s)%nat.
Proof. induction s as [|c s IH]; simpl; [lia|]. destruct (is_ws c); simpl; lia. Qed.

Lemma trim_start_suffix (s : jstr) : exists p, s = p ++ trim_start s.
Proof.
  induction s as [|c s [p Hp]]; simpl; [exists []; reflexivity|].
  destruct (is_ws c); [exists (c :: p); simpl; congruence|exists []; reflexivity].
Qed.

Lemma trim_start_fixed (s : jstr) :
  trim_start s = s <-> match s with [] => True | c :: _ => is_ws c = false end.
Proof.
  destruct s as [|c t]; simpl; [tauto|]. split.
  - intro E. destruct (is_ws c) eqn:Ec; [|reflexivity].
    pose proof (trim_start_length_le t) as Hl. rewrite E in Hl. simpl in Hl. lia.
  - intros ->. reflexivity.
Qed.

Lemma trim_fixed (s : jstr) :
  trim s = s <-> trim_start s = s /\ trim_start (rev s) = rev s.
Proof.
  unfold trim, trim_end. split.
  - intro E.
    assert (Hl : List.length (trim_start s) = List.length s).
    { apply Nat.le_antisymm; [apply trim_start_length_le|].
      rewrite <- E at 1. rewrite length_rev.
      etransitivity; [apply trim_start_length_le|]. rewrite length_rev. lia. }
    destruct (trim_start_suffix s) as [p Hp].
    assert (Hs : trim_start s = s).
    { destruct p as [|x p]; [symmetry; exact Hp|].
      rewrite Hp in Hl at 2. rewrite length_app in Hl. simpl in Hl. lia. }
    split; [exact Hs|]. rewrite Hs in E. rewrite <- E at 2. rewrite rev_involutive.
    reflexivity.
  - intros [E1 E2]. rewrite E1, E2. apply rev_involutive.
Qed.

Lemma Forall2_rev_same_ws (s t : jstr) : Forall2 same_ws s t -> Forall2 same_ws (rev s) (rev t).
Proof.
  induction 1 as [|c d s t Hcd _ IH]; simpl; [constructor|].
  apply Forall2_app; [exact IH|constructor; [exact Hcd|constructor]].
Qed.

Lemma trim_start_fixed_transfer (s t : jstr) :
  Forall2 same_ws s t -> trim_start s = s -> trim_start t = t.
Proof.
  rewrite !trim_start_fixed. destruct 1 as [|c d s t Hcd _]; [tauto|].
  unfold same_ws in Hcd. congruence.
Qed.


(** A trimmed string stays trimmed once stored. *)
Lemma db_string_trimmed (s : jstr) : trim s = s -> trim (db_string s) = db_string s.
Proof.
  rewrite !trim_fixed. intros [E1 E2]. pose proof (db_string_same_ws s) as Hs. split.
  - exact (trim_start_fixed_transfer _ _ Hs E1).
  - exact (trim_start_fixed_transfer _ _ (Forall2_rev_same_ws _ _ Hs) E2).
Qed.

(** ** Statements and the shape of the rows *)

Lemma run_stmt_ok `{coll : Collation} (s : stmt) (st : list row) :
  store_ok st -> stmt_ok s -> store_ok (snd (run_stmt s st)).
Proof.
  intros Hst Hs. unfold store_ok in *.
  destruct s as [| |u|u f sl a|f sl a u|u|]; simpl; try exact Hst.
  - destruct (negb (fits 36 u)); [exact Hst|].
    destruct (negb (fits 255 f)); [exact Hst|].
    destruct (negb (fits 255 sl)); [exact Hst|].
    destruct Hs as [Hf [Hfl [Hs [Hsl [q [-> [Hi [Hq0 H150]]]]]]]].
    destruct (sql_int_integer q Hi Hq0 H150) as [z [Hz [Hr _]]]. rewrite Hz.
    destruct (existsb (has_uuid u) st); [exact Hst|]. simpl.
    apply Forall_app. split; [exact Hst|]. constructor; [|constructor].
    unfold row_ok. simpl. rewrite !db_string_length, !db_string_trimmed by assumption. auto.
  - destruct (existsb (has_uuid u) st); [|exact Hst].
    destruct (negb (fits 255 f)); [exact Hst|].
    destruct (negb (fits 255 sl)); [exact Hst|].
    destruct Hs as [Hf [Hfl [Hs [Hsl [q [-> [Hi [Hq0 H150]]]]]]]].
    destruct (sql_int_integer q Hi Hq0 H150) as [z [Hz [Hr _]]]. rewrite Hz. simpl.
    apply Forall_forall. intros r Hr'. apply in_map_iff in Hr' as [r0 [<- Hin]].
    destruct (has_uuid u r0).
    + unfold row_ok. simpl. rewrite !db_string_length, !db_string_trimmed by assumption. auto.
    + rewrite Forall_forall in Hst. auto.
  - apply Forall_forall. intros r Hr. apply filter_In in Hr as [Hin _].
    rewrite Forall_forall in Hst. auto.
Qed.

Section ValidFacts.
Context `{JsConv} `{coll : Collation}.

Lemma valid_facts (f s a : jsval) :
  js_falsy (prop (validateUser (user_fields f s a)) (lit "valid")) = false ->
  string_with_trim_at_least 2 f /\ string_with_trim_at_least 1 s /\ age_ok a.
Proof.
  destruct (valid_flag f s a) as [-> _]. simpl. intro E.
  apply negb_false_iff, length_zero_nil, field_errors_nil in E as [E1 [E2 E3]].
  split; [apply fullname_rule_nil|split; [apply study_level_rule_nil|apply age_rule_nil]];
    assumption.
Qed.

Lemma valid_stmt_ok (fs ss : jstr) (a : jsval) (u : jstr) :
  (2 <= List.length (trim fs))%nat -> (1 <= List.length (trim ss))%nat -> age_ok a ->
  stmt_ok (SqlInsert u (trim fs) (trim ss) (Number a)) /\
  stmt_ok (SqlUpdate (trim fs) (trim ss) (Number a) u).
Proof.
  intros Hf Hs [_ [_ [q [Hq [Hi [H0 H150]]]]]].
  rewrite Hq. simpl. rewrite !trim_idem.
  split; repeat split; try assumption; exists q; auto.
Qed.

End ValidFacts.

(** Walks a handler to its end: the validation branch is opened into the
    facts it establishes, each [execute] into its three outcomes. *)
Ltac use_valid :=
  match goal with
  | Hv : js_falsy (prop (validateUser (user_fields ?f ?s ?a)) (lit "valid")) = false |- _ =>
      destruct (valid_facts f s a Hv) as [[?fs [? ?Hfs]] [[?ss [? ?Hss]] ?Ha]]; clear Hv; subst f s
  end.

Ltac walk_handler :=
  repeat first
    [ wp_step
    | use_valid
    | match goal with
      | |- wp (match as_string (JStr _) with _ => _ end) _ _ => cbn [as_string]
      | |- wp (execute _) _ _ =>
          apply wp_execute; cbn [w_pool w_store w_fault w_calls add_log add_call set_store];
          [ intros ?Hpool | intros ?Hpool ?err ?Hfault | intros ?Hpool ?Hfault ]
      | |- match fst (run_stmt ?s ?st) with _ => _ end =>
          destruct (fst (run_stmt s st)) eqn:?Hrun; cbv beta iota
      end
    | wp_case ].

Section StoreInvariant.
Context `{JsConv} `{coll : Collation}.

Lemma route_store_ok (r : request) (w : world) :
  store_ok (w_store w) -> store_ok (w_store (snd (route r w))).
Proof.
  intro Hw. apply (route_wp r (fun _ w' => store_ok (w_store w'))).
  destruct r as [|u|b g|u b|u]; simpl handler;
    [unfold list_users|unfold get_user|unfold create_user|unfold update_user|unfold delete_user];
    walk_handler; cbn [w_store add_log add_call set_store]; try exact Hw;
    apply run_stmt_ok; try exact Hw; try exact I;
    first [ exact (proj1 (valid_stmt_ok _ _ _ _ Hfs Hss Ha))
          | exact (proj2 (valid_stmt_ok _ _ _ _ Hfs Hss Ha)) ].
Qed.

End StoreInvariant.

(** ** Round trips with the storage up *)

Lemma jstr_eqb_true (a b : jstr) : jstr_eqb a b = true -> a = b.
Proof.
  revert b; induction a as [|c a IH]; intros [|d b]; simpl; try discriminate; auto.
  intro E. apply andb_prop in E as [E1 E2]. apply N.eqb_eq in E1. subst. f_equal. auto.
Qed.

Lemma jstr_eqb_refl (a : jstr) : jstr_eqb a a = true.
Proof. induction a as [|c a IH]; simpl; [reflexivity|]. rewrite N.eqb_refl. exact IH. Qed.


Lemma existsb_false_filter {A} (p : A -> bool) (l : list A) :
  existsb p l = false -> filter p l = [].
Proof.
  induction l as [|x l IH]; simpl; [reflexivity|].
  intro E. apply orb_false_iff in E as [E1 E2]. rewrite E1. auto.
Qed.

Lemma existsb_true_filter {A} (p : A -> bool) (l : list A) :
  existsb p l = true -> exists x rest, filter p l = x :: rest.
Proof.
  induction l as [|x l IH]; simpl; [discriminate|].
  destruct (p x) eqn:E; simpl; eauto.
Qed.

Lemma existsb_filter_neg {A} (p : A -> bool) (l : list A) :
  existsb p (filter (fun x => negb (p x)) l) = false.
Proof.
  induction l as [|x l IH]; simpl; [reflexivity|].
  destruct (p x) eqn:E; simpl; [exact IH|]. rewrite E. exact IH.
Qed.


Section StoreFacts.
Context `{coll : Collation}.






End StoreFacts.

Section Healthy.
Context `{JsConv} `{coll : Collation}.

Lemma route_frame (r : request) (w : world) :
  w_pool (snd (route r w)) = w_pool w /\ w_fault (snd (route r w)) = w_fault w.
Proof.
  apply (route_wp r (fun _ w' => w_pool w' = w_pool w /\ w_fault w' = w_fault w)).
  destruct r as [|u|b g|u b|u]; simpl handler;
    [unfold list_users|unfold get_user|unfold create_user|unfold update_user|unfold delete_user];
    walk_handler; cbn [w_pool w_fault add_log add_call set_store]; split; reflexivity.
Qed.




Lemma get_spec (u : jstr) (w : world) :
  w_pool w = true -> w_fault w (List.length (w_calls w)) = None ->
  fst (route (ReqGet u) w) =
  match filter (has_uuid u) (w_store w) with
  | [] => mkResp 404 (error_body msg_not_found)
  | r :: _ => mkResp 200 (row_to_js r)
  end.
Proof.
  intros Hp Hfl.
  unfold route, handler, get_user, try_catch, bind, execute.
  rewrite Hp. cbv beta iota zeta delta [negb]. rewrite Hfl. cbn [run_stmt].
  destruct (filter (has_uuid u) (w_store w)); reflexivity.
Qed.

Lemma valid_body_fields (b : jsval) :
  valid_body b ->
  exists fs ss q z, prop b (lit "fullname") = JStr fs /\ prop b (lit "study_level") = JStr ss /\
    Number (prop b (lit "age")) = Fin q /\ sql_int (Number (prop b (lit "age"))) = Some z /\
    (inject_Z z == q)%Q.
Proof.
  intros [_ [_ Hv]]. unfold body_errors in Hv.
  apply field_errors_nil in Hv as [E1 [E2 E3]].
  apply fullname_rule_nil in E1 as [fs [Hf _]].
  apply study_level_rule_nil in E2 as [ss [Hs _]].
  apply age_rule_nil in E3 as [_ [_ [q [Hq [Hi [H0 H150]]]]]].
  destruct (sql_int_integer q Hi H0 H150) as [z [Hz [_ Hzq]]].
  exists fs, ss, q, z. rewrite Hq. auto.
Qed.

Lemma create_spec (b : jsval) (g fs ss : jstr) (z : Z) (w : world) :
  valid_body b ->
  prop b (lit "fullname") = JStr fs -> prop b (lit "study_level") = JStr ss ->
  sql_int (Number (prop b (lit "age"))) = Some z ->
  w_pool w = true -> w_fault w (List.length (w_calls w)) = None ->
  existsb (has_uuid g) (w_store w) = false ->
  fits 36 g = true -> fits 255 (trim fs) = true -> fits 255 (trim ss) = true ->
  fst (route (ReqCreate b g) w) = mkResp 201 (normalized_user g b) /\
  w_store (snd (route (ReqCreate b g) w)) =
    w_store w ++ [mkRow (db_string g) (db_string (trim fs)) (db_string (trim ss)) z].
Proof.
  intros [H1 [H2 Hv]] Hf Hs Hz Hp Hfl Hfr Hg36 Hf255 Hs255.
  unfold normalized_user. rewrite Hf, Hs.
  destruct (route (ReqCreate b g) w) as [r w'] eqn:E; cbn [fst snd].
  revert E. unfold route, handler, create_user, try_catch, bind, destructure.
  rewrite !get_prop_defined by assumption. rewrite Hf, Hs.
  cbv beta iota zeta delta [ret].
  destruct (valid_flag (JStr fs) (JStr ss) (prop b (lit "age"))) as [-> _].
  unfold body_errors in Hv. rewrite Hf, Hs in Hv. rewrite Hv.
  cbv beta iota zeta delta [js_falsy negb List.length Nat.eqb call_trim as_string ret].
  unfold execute. rewrite Hp. cbv beta iota zeta delta [negb]. unfold add_call at 2.
  cbn [w_calls w_fault]. rewrite Hfl. cbn [run_stmt w_store].
  rewrite Hg36, Hf255, Hs255, Hz, Hfr. cbn [negb].
  cbn [log add_log set_store fst snd w_store w_calls w_pool w_fault w_log].
  intro E; injection E as <- <-. split; reflexivity.
Qed.


(** With [pool] assigned, a valid create sends exactly one statement: the
    INSERT of the trimmed strings and [Number(age)]. *)
Lemma create_calls (b : jsval) (g fs ss : jstr) (w : world) :
  valid_body b ->
  prop b (lit "fullname") = JStr fs -> prop b (lit "study_level") = JStr ss ->
  w_pool w = true ->
  w_calls (snd (route (ReqCreate b g) w)) =
    w_calls w ++ [SqlInsert g (trim fs) (trim ss) (Number (prop b (lit "age")))].
Proof.
  intros [H1 [H2 Hv]] Hf Hs Hp.
  unfold route, handler, create_user, try_catch, bind, destructure.
  rewrite !get_prop_defined by assumption. rewrite Hf, Hs.
  cbv beta iota zeta delta [ret].
  destruct (valid_flag (JStr fs) (JStr ss) (prop b (lit "age"))) as [-> _].
  unfold body_errors in Hv. rewrite Hf, Hs in Hv. rewrite Hv.
  cbv beta iota zeta delta [js_falsy negb List.length Nat.eqb call_trim as_string ret].
  unfold execute. rewrite Hp. cbv beta iota zeta delta [negb].
  destruct (w_fault w (List.length (w_calls w))) as [e|];
    [|destruct (run_stmt _ (w_store w)) as [[v|e] st']]; reflexivity.
Qed.

(** With [pool] assigned and the SELECT finding the row, a valid update
    sends the SELECT and then the UPDATE of the trimmed strings and
    [Number(age)]. *)
Lemma update_calls (b : jsval) (u fs ss : jstr) (w : world) :
  valid_body b ->
  prop b (lit "fullname") = JStr fs -> prop b (lit "study_level") = JStr ss ->
  w_pool w = true -> w_fault w (List.length (w_calls w)) = None ->
  existsb (has_uuid u) (w_store w) = true ->
  w_calls (snd (route (ReqUpdate u b) w)) =
    w_calls w ++ [SqlSelectByUuid u; SqlUpdate (trim fs) (trim ss) (Number (prop b (lit "age"))) u].
Proof.
  intros [H1 [H2 Hv]] Hf Hs Hp Hfl Hex.
  destruct (existsb_true_filter _ _ Hex) as [x [rest Hfilt]].
  unfold route, handler, update_user, try_catch, bind, destructure.
  rewrite !get_prop_defined by assumption. rewrite Hf, Hs.
  cbv beta iota zeta delta [ret].
  destruct (valid_flag (JStr fs) (JStr ss) (prop b (lit "age"))) as [-> _].
  unfold body_errors in Hv. rewrite Hf, Hs in Hv. rewrite Hv.
  cbv beta iota zeta delta [js_falsy negb List.length Nat.eqb call_trim as_string ret].
  unfold execute. rewrite Hp. cbv beta iota zeta delta [negb]. rewrite Hfl.
  cbn [run_stmt w_store w_calls w_pool w_fault add_call set_store]. rewrite Hfilt.
  cbn [map arr_length List.length Nat.eqb w_calls w_pool w_fault w_store add_call set_store].
  rewrite Hp.
  match goal with |- context [w_fault w ?i] => destruct (w_fault w i) as [e|] end;
    [|repeat match goal with
             | |- context [if ?c then _ else _] => destruct c
             | |- context [match sql_int ?a with _ => _ end] => destruct (sql_int a)
             end];
    cbn; rewrite <- app_assoc; reflexivity.
Qed.

(** A trimmed string longer than its [VARCHAR(255)] column: the INSERT
    is refused and the create answers 500. *)
Lemma create_too_long (b : jsval) (g fs ss : jstr) (w : world) :
  valid_body b ->
  prop b (lit "fullname") = JStr fs -> prop b (lit "study_level") = JStr ss ->
  w_pool w = true -> w_fault w (List.length (w_calls w)) = None -> fits 36 g = true ->
  fits 255 (trim fs) && fits 255 (trim ss) = false ->
  fst (route (ReqCreate b g) w) = mkResp 500 (error_body (lit "Error creating user")).
Proof.
  intros [H1 [H2 Hv]] Hf Hs Hp Hfl Hg36 Hlong.
  unfold route, handler, create_user, try_catch, bind, destructure.
  rewrite !get_prop_defined by assumption. rewrite Hf, Hs.
  cbv beta iota zeta delta [ret].
  destruct (valid_flag (JStr fs) (JStr ss) (prop b (lit "age"))) as [-> _].
  unfold body_errors in Hv. rewrite Hf, Hs in Hv. rewrite Hv.
  cbv beta iota zeta delta [js_falsy negb List.length Nat.eqb call_trim as_string ret].
  unfold execute. rewrite Hp. cbv beta iota zeta delta [negb]. rewrite Hfl.
  cbn [run_stmt w_store]. rewrite Hg36. cbn [negb].
  destruct (fits 255 (trim fs)); [destruct (fits 255 (trim ss)); [discriminate|]|];
    reflexivity.
Qed.

Lemma delete_store (u : jstr) (w : world) :
  w_pool w = true -> w_fault w (List.length (w_calls w)) = None ->
  w_store (snd (route (ReqDelete u) w)) = filter (fun r => negb (has_uuid u r)) (w_store w).
Proof.
  intros Hp Hfl.
  unfold route, handler, delete_user, try_catch, bind, execute.
  rewrite Hp. cbv beta iota zeta delta [negb]. rewrite Hfl. cbn [run_stmt].
  cbn [set_store add_call w_store].
  destruct (js_strict_eq _ _); reflexivity.
Qed.


End Healthy.

Ltac no_fault_here w :=
  let i := fresh "i" in let Hi := fresh "Hi" in let Hf := fresh "Hf" in
  intros [i [Hi Hf]];
  cbn [w_calls w_fault add_log add_call set_store] in *;
  rewrite ?length_app in *; cbn [List.length] in *;
  first [ lia
        | destruct (Nat.eq_dec i (List.length (w_calls w))) as [->|?]; [congruence|];
          first [ lia
                | destruct (Nat.eq_dec i (List.length (w_calls w) + 1)) as [->|?];
                  [congruence|lia] ] ].

Section Errors.
Context `{JsConv} `{coll : Collation}.

Lemma route_errors_generic (r : request) (w : world) :
  status (fst (route r w)) = 500 \/ faulted w (snd (route r w)) ->
  fst (route r w) = generic_error r.
Proof.
  apply (route_wp r (fun resp w' => status resp = 500 \/ faulted w w' -> resp = generic_error r)).
  destruct r as [|u|b g|u b|u]; simpl handler;
    [unfold list_users|unfold get_user|unfold create_user|unfold update_user|unfold delete_user];
    walk_handler;
    first [ intros _; reflexivity
          | intros [Hs|Hfl]; [discriminate Hs | revert Hfl; no_fault_here w] ].
Qed.

Lemma sim_ret {A} (a : A) : sim2 (ret a) (ret a).
Proof. intros w1 w2 R. simpl. auto. Qed.

Lemma sim_throw {A} (e1 e2 : jsval) : @sim2 A (throw e1) (throw e2).
Proof. intros w1 w2 R. simpl. auto. Qed.

Lemma sim_bind {A B} (c1 c2 : M A) (k1 k2 : A -> M B) :
  sim2 c1 c2 -> (forall a, sim2 (k1 a) (k2 a)) -> sim2 (bind c1 k1) (bind c2 k2).
Proof.
  intros Hc Hk w1 w2 R. unfold bind.
  destruct (Hc w1 w2 R) as [Ho R'].
  destruct (c1 w1) as [[a1|e1] w1'], (c2 w2) as [[a2|e2] w2']; simpl in *;
    try contradiction; auto.
  subst. apply Hk. exact R'.
Qed.

Lemma sim_try {A} (c1 c2 : M A) (h1 h2 : jsval -> M A) :
  sim2 c1 c2 -> (forall e1 e2, sim2 (h1 e1) (h2 e2)) -> sim2 (try_catch c1 h1) (try_catch c2 h2).
Proof.
  intros Hc Hh w1 w2 R. unfold try_catch.
  destruct (Hc w1 w2 R) as [Ho R'].
  destruct (c1 w1) as [[a1|e1] w1'], (c2 w2) as [[a2|e2] w2']; simpl in *;
    try contradiction; auto.
  apply Hh. exact R'.
Qed.

Lemma sim_log sev st m1 m2 ctx1 ctx2 : sim2 (log sev st m1 ctx1) (log sev st m2 ctx2).
Proof. intros w1 w2 R. simpl. split; [reflexivity|exact R]. Qed.

Lemma sim_execute (s : stmt) : sim2 (execute s) (execute s).
Proof.
  intros w1 w2 R. pose proof R as [Hp [Hs [Hc Hf]]]. unfold execute.
  rewrite Hp, Hc. destruct (w_pool w2) eqn:P2; cbn [negb]; [|split; [exact I|exact R]].
  destruct (w_fault w1 (List.length (w_calls w2))) eqn:E1,
           (w_fault w2 (List.length (w_calls w2))) eqn:E2.
  - split; [exact I|]. unfold same_but_errors; cbn.
    split; [congruence|split; [congruence|split; [congruence|exact Hf]]].
  - apply Hf in E2. congruence.
  - apply Hf in E1. congruence.
  - rewrite Hs. destruct (run_stmt s (w_store w2)) as [o st']. cbn [fst snd].
    split; [destruct o; simpl; auto|]. unfold same_but_errors; cbn.
    split; [congruence|split; [congruence|split; [congruence|exact Hf]]].
Qed.

Lemma sim_handleError ctx e1 e2 st msg :
  sim2 (handleError ctx e1 st msg) (handleError ctx e2 st msg).
Proof. unfold handleError. apply sim_bind; [apply sim_log|intros; apply sim_ret]. Qed.

End Errors.

Ltac sim_step :=
  match goal with
  | |- sim2 (try_catch _ _) (try_catch _ _) => apply sim_try; [|intros ? ?; cbv beta]
  | |- sim2 (bind _ _) (bind _ _) => apply sim_bind; [|intro; cbv beta iota]
  | |- sim2 (ret _) (ret _) => apply sim_ret
  | |- sim2 (throw _) (throw _) => apply sim_throw
  | |- sim2 (log _ _ _ _) (log _ _ _ _) => apply sim_log
  | |- sim2 (execute _) (execute _) => apply sim_execute
  | |- sim2 (handleError _ _ _ _) (handleError _ _ _ _) => apply sim_handleError
  | |- sim2 (call_trim _) (call_trim _) => unfold call_trim
  | |- sim2 (destructure _) (destructure _) => unfold destructure
  | |- sim2 (match ?x with _ => _ end) _ => destruct x
  | |- sim2 (if ?x then _ else _) _ => destruct x
  end.

Section Sim.
Context `{JsConv} `{coll : Collation}.

Lemma handler_sim (r : request) : sim2 (handler r) (handler r).
Proof.
  destruct r as [|u|b g|u b|u]; simpl handler;
    [unfold list_users|unfold get_user|unfold create_user|unfold update_user|unfold delete_user];
    repeat sim_step.
Qed.

Lemma route_same_response (r : request) (w1 w2 : world) :
  same_but_errors w1 w2 -> fst (route r w1) = fst (route r w2).
Proof.
  intro R. destruct (handler_sim r w1 w2 R) as [Ho _]. unfold route.
  destruct (handler r w1) as [[a1|e1] w1'], (handler r w2) as [[a2|e2] w2'];
    simpl in *; try contradiction; congruence.
Qed.

End Sim.

Section MoreClaims.
Context `{JsConv} `{coll : Collation}.

(** C10: starting from rows of the right shape (trimmed fullname of at
    least 2 code units, trimmed study_level of at least 1, age an integer
    in [0, 150]), every sequence of requests, whatever the faults of the
    storage, leaves rows of that shape. *)
Theorem store_rows_keep_shape (rs : list request) (w : world) :
  store_ok (w_store w) -> store_ok (w_store (run_requests rs w)).
Proof.
  revert w; induction rs as [|r rs IH]; intros w Hw; simpl; [exact Hw|].
  apply IH. apply route_store_ok. exact Hw.
Qed.


(** C8: every answer with status 500, and every answer to a request
    during which a statement failed at the storage, is the operation's
    fixed [{error: msg}]; and the answer is the same for any two error
    values the storage may raise: it depends on which statements failed,
    never on the errors' message or stack. *)
Theorem storage_errors_answer_generic_500 (r : request) (w w2 : world) :
  (status (fst (route r w)) = 500 \/ faulted w (snd (route r w)) ->
   fst (route r w) = generic_error r) /\
  (same_but_errors w w2 -> fst (route r w) = fst (route r w2)).
Proof.
  split; [apply route_errors_generic|apply route_same_response].
Qed.

(** C2, amended: when [validateUser] reports [valid], its result is
    exactly [{valid: true, errors: []}]; the fields it checked are then a
    string whose trim has at least 2 code units, a string whose trim has
    at least 1, and an age whose [Number] is an integer in [0, 150]. The
    normalized record is built by the create and update handlers: with
    that object as the request body and [pool] assigned, create sends the
    INSERT of the trimmed fullname and study_level and of [Number(age)],
    and update, once its SELECT finds the row, sends the UPDATE of the
    same values. *)
Theorem validateUser_success_shape (userData : jsval) :
  prop (validateUser userData) (lit "valid") = JBool true ->
  validateUser userData = mk_validation true [] /\
  string_with_trim_at_least 2 (prop userData (lit "fullname")) /\
  string_with_trim_at_least 1 (prop userData (lit "study_level")) /\
  age_ok (prop userData (lit "age")) /\
  exists fs ss, prop userData (lit "fullname") = JStr fs /\
    prop userData (lit "study_level") = JStr ss /\
    (forall (g : jstr) (w : world), w_pool w = true ->
       w_calls (snd (route (ReqCreate userData g) w)) =
         w_calls w ++ [SqlInsert g (trim fs) (trim ss) (Number (prop userData (lit "age")))]) /\
    (forall (u : jstr) (w : world),
       w_pool w = true -> w_fault w (List.length (w_calls w)) = None ->
       existsb (has_uuid u) (w_store w) = true ->
       w_calls (snd (route (ReqUpdate u userData) w)) =
         w_calls w ++ [SqlSelectByUuid u;
                       SqlUpdate (trim fs) (trim ss) (Number (prop userData (lit "age"))) u]).
Proof.
  intro Hv.
  destruct (js_falsy userData) eqn:E1;
    [unfold validateUser in Hv; rewrite E1 in Hv; discriminate Hv|].
  destruct (String.eqb (typeof userData) "object") eqn:E2;
    [|unfold validateUser in Hv; rewrite E1, E2 in Hv; discriminate Hv].
  apply String.eqb_eq in E2.
  assert (Hu : userData <> JUndef) by (intros ->; discriminate E1).
  assert (Hn : userData <> JNull) by (intros ->; discriminate E1).
  rewrite validateUser_object in * by assumption.
  assert (Hk : forall v e, prop (mk_validation v e) (lit "valid") = JBool v) by reflexivity.
  rewrite Hk in Hv. injection Hv as Hv. apply length_zero_nil in Hv.
  assert (Hb : valid_body userData) by (split; [exact Hu|split; [exact Hn|exact Hv]]).
  rewrite Hv. apply field_errors_nil in Hv as [E3 [E4 E5]].
  pose proof (fullname_rule_nil _ E3) as Hf. pose proof (study_level_rule_nil _ E4) as Hs.
  split; [reflexivity|]. split; [exact Hf|]. split; [exact Hs|].
  split; [apply age_rule_nil; exact E5|].
  destruct Hf as [fs [Hf _]]. destruct Hs as [ss [Hs _]].
  exists fs, ss. split; [exact Hf|]. split; [exact Hs|]. split.
  - intros g w Hp. exact (create_calls userData g fs ss w Hb Hf Hs Hp).
  - intros u w Hp Hfl Hex. exact (update_calls userData u fs ss w Hb Hf Hs Hp Hfl Hex).
Qed.

(** C3, amended: a create with a valid body, a fresh generated value of
    at most 36 characters and the storage up answers 201 with
    [{uuid, fullname, study_level, age}] when the trimmed strings fit
    their VARCHAR(255) columns: the identifier is under [uuid], the
    strings are trimmed and [age] is [Number(age)]; when one of them is
    longer, the INSERT is refused and the create answers 500. *)
Theorem create_answers_uuid_record (b : jsval) (g : jstr) (w : world) :
  valid_body b -> w_pool w = true -> w_fault w (List.length (w_calls w)) = None ->
  existsb (has_uuid g) (w_store w) = false -> fits 36 g = true ->
  (body_fits b = true -> fst (route (ReqCreate b g) w) = mkResp 201 (normalized_user g b)) /\
  (body_fits b = false ->
   fst (route (ReqCreate b g) w) = mkResp 500 (error_body (lit "Error creating user"))).
Proof.
  intros Hv Hp Hfl Hfr Hg36.
  destruct (valid_body_fields b Hv) as [fs [ss [q [z [Hf [Hs [Hq [Hz Hzq]]]]]]]].
  unfold body_fits. rewrite Hf, Hs. split; intro Hbf.
  - apply andb_prop in Hbf as [Hf255 Hs255].
    exact (proj1 (create_spec b g fs ss z w Hv Hf Hs Hz Hp Hfl Hfr Hg36 Hf255 Hs255)).
  - exact (create_too_long b g fs ss w Hv Hf Hs Hp Hfl Hg36 Hbf).
Qed.

End MoreClaims.

(** ** More of the code: the other routes and edges *)

Lemma qeq_inject_Z (a b : Z) : Qeq_bool (inject_Z a) (inject_Z b) = Z.eqb a b.
Proof.
  destruct (Qeq_bool _ _) eqn:E; symmetry.
  - apply Qeq_bool_iff in E. unfold Qeq in E. simpl in E. apply Z.eqb_eq. lia.
  - apply Z.eqb_neq. intro Hab. subst. rewrite Qeq_bool_refl in E. discriminate.
Qed.

Section Extras.
Context `{JsConv} `{coll : Collation}.

Lemma has_uuid_neq (u : jstr) (r : row) : has_uuid u r = false -> r_uuid r <> db_string u.
Proof. unfold has_uuid. intros E Hr. rewrite Hr, coll_refl in E. discriminate. Qed.

Lemma existsb_uuid_not_in (u : jstr) (st : list row) :
  existsb (has_uuid u) st = false -> ~ In (db_string u) (map r_uuid st).
Proof.
  induction st as [|r st IH]; simpl; [tauto|].
  intros E [Hr|Hr]; apply orb_false_iff in E as [E1 E2].
  - exact (has_uuid_neq _ _ E1 Hr).
  - exact (IH E2 Hr).
Qed.

Lemma uuids_unique_filter (keep : row -> bool) (st : list row) :
  uuids_unique st -> uuids_unique (filter keep st).
Proof.
  unfold uuids_unique. induction st as [|x st IH]; cbn [filter]; [tauto|].
  cbn [map]. intro Hn. inversion Hn as [|? ? Hx Hd]; subst.
  destruct (keep x); cbn [map]; [|exact (IH Hd)].
  constructor; [|exact (IH Hd)].
  rewrite in_map_iff. intros [y [Hy Hin]]. apply Hx.
  rewrite filter_In in Hin. rewrite <- Hy. apply in_map, Hin.
Qed.

Lemma run_stmt_unique (s : stmt) (st : list row) :
  uuids_unique st -> uuids_unique (snd (run_stmt s st)).
Proof.
  unfold uuids_unique. intro Hu.
  destruct s as [| |u|u f sl a|f sl a u|u|]; simpl; auto.
  - destruct (negb (fits 36 u)); [exact Hu|].
    destruct (negb (fits 255 f)); [exact Hu|].
    destruct (negb (fits 255 sl)); [exact Hu|].
    destruct (sql_int a); [|exact Hu].
    destruct (existsb (has_uuid u) st) eqn:E; [exact Hu|]. simpl.
    rewrite map_app. simpl.
    apply (Permutation_NoDup (Permutation_cons_append _ _)).
    constructor; [apply existsb_uuid_not_in; exact E|exact Hu].
  - destruct (existsb (has_uuid u) st); [|exact Hu].
    destruct (negb (fits 255 f)); [exact Hu|].
    destruct (negb (fits 255 sl)); [exact Hu|].
    destruct (sql_int a); simpl; auto.
    rewrite map_map.
    erewrite map_ext; [exact Hu|]. intro r. destruct (has_uuid u r); reflexivity.
  - exact (uuids_unique_filter _ _ Hu).
Qed.

(** Two stored keys the same parameter matches are equal for the collation. *)
Lemma has_uuid_both (u : jstr) (x y : row) :
  has_uuid u x = true -> has_uuid u y = true -> coll_eqb (r_uuid x) (r_uuid y) = true.
Proof.
  unfold has_uuid. intros Ex Ey. rewrite coll_sym in Ey. exact (coll_trans _ _ _ Ex Ey).
Qed.

(** Under the primary key, a parameter matching a row matches it alone. *)
Lemma filter_unique (u : jstr) (r : row) (st : list row) :
  keys_unique st -> In r st -> has_uuid u r = true -> filter (has_uuid u) st = [r].
Proof.
  unfold keys_unique. intros Hk. revert r.
  induction Hk as [|x st Hx Hk IH]; intros r Hin Hr; simpl in Hin; [tauto|]. cbn [filter].
  rewrite Forall_forall in Hx. destruct Hin as [<-|Hin].
  - rewrite Hr. f_equal. apply existsb_false_filter.
    destruct (existsb (has_uuid u) st) eqn:E; [|reflexivity].
    apply existsb_exists in E as [y [Hy Hyu]].
    pose proof (has_uuid_both u x y Hr Hyu) as Hxy.
    rewrite (Hx y Hy) in Hxy. discriminate Hxy.
  - destruct (has_uuid u x) eqn:E; [|exact (IH r Hin Hr)].
    pose proof (has_uuid_both u x r E Hr) as Hxr. rewrite (Hx r Hin) in Hxr. discriminate Hxr.
Qed.


Lemma route_unique (r : request) (w : world) :
  uuids_unique (w_store w) -> uuids_unique (w_store (snd (route r w))).
Proof.
  intro Hw. apply (route_wp r (fun _ w' => uuids_unique (w_store w'))).
  destruct r as [|u|b g|u b|u]; simpl handler;
    [unfold list_users|unfold get_user|unfold create_user|unfold update_user|unfold delete_user];
    walk_handler; cbn [w_store add_log add_call set_store]; try exact Hw;
    apply run_stmt_unique; exact Hw.
Qed.

(** X1: if no two rows of the store share a uuid, none do after any sequence of requests (create refuses a uuid already present, update keeps the uuids, delete only removes rows). *)
Theorem uuids_stay_unique (rs : list request) (w : world) :
  uuids_unique (w_store w) -> uuids_unique (w_store (run_requests rs w)).
Proof.
  revert w; induction rs as [|r rs IH]; intros w Hw; simpl; [exact Hw|].
  apply IH. apply route_unique. exact Hw.
Qed.

(** X2: every handler catches what its body throws: run on any world, it returns a response and never rejects. *)
Theorem handlers_always_answer (r : request) (w : world) :
  match fst (handler r w) with Ret _ => True | Thr _ => False end.
Proof.
  change (wp (handler r) (fun o _ => match o with Ret _ => True | Thr _ => False end) w).
  destruct r as [|u|b g|u b|u]; simpl handler;
    [unfold list_users|unfold get_user|unfold create_user|unfold update_user|unfold delete_user];
    walk_handler; exact I.
Qed.

(** X3: with the pool assigned and the SELECT not failing, GET /api/users answers 200 with every row of the store, in store order, and changes nothing. *)
Theorem list_users_healthy (w : world) :
  w_pool w = true -> w_fault w (List.length (w_calls w)) = None ->
  fst (route ReqList w) = mkResp 200 (JArr (map row_to_js (w_store w))) /\
  w_store (snd (route ReqList w)) = w_store w.
Proof.
  intros Hp Hfl.
  unfold route, handler, list_users, try_catch, bind, execute.
  rewrite Hp. cbv beta iota zeta delta [negb]. rewrite Hfl. cbn [run_stmt].
  split; reflexivity.
Qed.

Lemma delete_spec (u : jstr) (w : world) :
  w_pool w = true -> w_fault w (List.length (w_calls w)) = None ->
  fst (route (ReqDelete u) w) =
    (if existsb (has_uuid u) (w_store w) then mkResp 200 (JObj [(lit "message", JStr msg_deleted)])
     else mkResp 404 (error_body msg_not_found)) /\
  w_store (snd (route (ReqDelete u) w)) = filter (fun r => negb (has_uuid u r)) (w_store w) /\
  w_calls (snd (route (ReqDelete u) w)) = w_calls w ++ [SqlDelete u].
Proof.
  intros Hp Hfl. split; [|split; [apply delete_store; assumption|]].
  - unfold route, handler, delete_user, try_catch, bind, execute.
    rewrite Hp. cbv beta iota zeta delta [negb]. rewrite Hfl. cbn [run_stmt].
    destruct (existsb (has_uuid u) (w_store w)) eqn:E.
    + destruct (existsb_true_filter _ _ E) as [x [rest ->]].
      cbn [fst snd]. unfold js_strict_eq, jnum_z. cbn -[Qeq_bool inject_Z]. rewrite qeq_inject_Z.
      reflexivity.
    + rewrite (existsb_false_filter _ _ E). reflexivity.
  - unfold route, handler, delete_user, try_catch, bind, execute.
    rewrite Hp. cbv beta iota zeta delta [negb]. rewrite Hfl. cbn [run_stmt].
    cbn [set_store add_call w_calls fst snd].
    destruct (js_strict_eq _ _); reflexivity.
Qed.

Lemma filter_neg_idem {A} (p : A -> bool) (l : list A) :
  filter (fun x => negb (p x)) (filter (fun x => negb (p x)) l) = filter (fun x => negb (p x)) l.
Proof.
  induction l as [|x l IH]; simpl; [reflexivity|].
  destruct (p x) eqn:E; simpl; [exact IH|]. rewrite E. simpl. f_equal. exact IH.
Qed.

(** X4: with a working storage, DELETE answers 200 when a row has the uuid and 404 otherwise, and removes every row with that uuid. *)
Theorem delete_user_healthy (u : jstr) (w : world) :
  w_pool w = true -> w_fault w (List.length (w_calls w)) = None ->
  fst (route (ReqDelete u) w) =
    (if existsb (has_uuid u) (w_store w) then mkResp 200 (JObj [(lit "message", JStr msg_deleted)])
     else mkResp 404 (error_body msg_not_found)) /\
  w_store (snd (route (ReqDelete u) w)) = filter (fun r => negb (has_uuid u r)) (w_store w).
Proof.
  intros Hp Hfl. destruct (delete_spec u w Hp Hfl) as [H1 [H2 _]]. split; assumption.
Qed.

(** X5: two DELETE requests on the same uuid: with the storage working for both, the second one answers 404 and the store is the first deletion's. *)
Theorem delete_twice_not_found (u : jstr) (w : world) :
  w_pool w = true -> w_fault w (List.length (w_calls w)) = None ->
  w_fault w (S (List.length (w_calls w))) = None ->
  fst (route (ReqDelete u) (snd (route (ReqDelete u) w))) = mkResp 404 (error_body msg_not_found) /\
  w_store (snd (route (ReqDelete u) (snd (route (ReqDelete u) w)))) =
    filter (fun r => negb (has_uuid u r)) (w_store w).
Proof.
  intros Hp Hfl Hfl2.
  destruct (delete_spec u w Hp Hfl) as [_ [Hs1 Hc1]].
  destruct (route_frame (ReqDelete u) w) as [Hp1 Hf1].
  assert (Hq1 : w_pool (snd (route (ReqDelete u) w)) = true) by congruence.
  assert (Hq2 : w_fault (snd (route (ReqDelete u) w))
                  (List.length (w_calls (snd (route (ReqDelete u) w)))) = None).
  { rewrite Hf1, Hc1, length_app. simpl. rewrite Nat.add_1_r. exact Hfl2. }
  destruct (delete_spec u _ Hq1 Hq2) as [R2 [S2 _]].
  rewrite R2, S2, Hs1, existsb_filter_neg, filter_neg_idem. split; reflexivity.
Qed.


(** X6: an update with a valid body on a uuid absent from the store answers 404, sends only the existence SELECT, and leaves the store unchanged. *)
Theorem update_missing_user (b : jsval) (u : jstr) (w : world) :
  valid_body b -> w_pool w = true -> w_fault w (List.length (w_calls w)) = None ->
  existsb (has_uuid u) (w_store w) = false ->
  fst (route (ReqUpdate u b) w) = mkResp 404 (error_body msg_not_found) /\
  w_store (snd (route (ReqUpdate u b) w)) = w_store w /\
  w_calls (snd (route (ReqUpdate u b) w)) = w_calls w ++ [SqlSelectByUuid u].
Proof.
  intros Hv Hp Hfl Hab.
  destruct (valid_body_fields b Hv) as [fs [ss [q [z [Hf [Hs [Hq [Hz Hzq]]]]]]]].
  destruct Hv as [H1 [H2 Hv]].
  destruct (route (ReqUpdate u b) w) as [r w'] eqn:E; cbn [fst snd].
  revert E. unfold route, handler, update_user, try_catch, bind, destructure.
  rewrite !get_prop_defined by assumption. rewrite Hf, Hs.
  cbv beta iota zeta delta [ret].
  destruct (valid_flag (JStr fs) (JStr ss) (prop b (lit "age"))) as [-> _].
  unfold body_errors in Hv. rewrite Hf, Hs in Hv. rewrite Hv.
  cbv beta iota zeta delta [js_falsy negb List.length Nat.eqb].
  unfold execute. rewrite Hp. cbv beta iota zeta delta [negb].
  rewrite Hfl. cbn [run_stmt]. rewrite (existsb_false_filter _ _ Hab).
  cbn [log add_log set_store add_call fst snd w_store w_calls w_pool w_fault w_log map
       arr_length List.length Nat.eqb].
  intro E; injection E as <- <-. repeat split; reflexivity.
Qed.

(** X7: a create whose generated uuid is already in the store is refused by the primary key and answers the generic 500, leaving the store unchanged. *)
Theorem create_never_overwrites (b : jsval) (g : jstr) (w : world) :
  valid_body b -> w_pool w = true -> w_fault w (List.length (w_calls w)) = None ->
  existsb (has_uuid g) (w_store w) = true ->
  fst (route (ReqCreate b g) w) = generic_error (ReqCreate b g) /\
  w_store (snd (route (ReqCreate b g) w)) = w_store w.
Proof.
  intros Hv Hp Hfl Hex.
  destruct (valid_body_fields b Hv) as [fs [ss [q [z [Hf [Hs [Hq [Hz Hzq]]]]]]]].
  destruct Hv as [H1 [H2 Hv]].
  destruct (route (ReqCreate b g) w) as [r w'] eqn:E; cbn [fst snd].
  revert E. unfold route, handler, create_user, try_catch, bind, destructure.
  rewrite !get_prop_defined by assumption. rewrite Hf, Hs.
  cbv beta iota zeta delta [ret].
  destruct (valid_flag (JStr fs) (JStr ss) (prop b (lit "age"))) as [-> _].
  unfold body_errors in Hv. rewrite Hf, Hs in Hv. rewrite Hv.
  cbv beta iota zeta delta [js_falsy negb List.length Nat.eqb call_trim as_string ret].
  unfold execute. rewrite Hp. cbv beta iota zeta delta [negb].
  rewrite Hfl. cbn [run_stmt]. rewrite Hz, Hex.
  destruct (negb (fits 36 g));
    [|destruct (negb (fits 255 (trim fs))); [|destruct (negb (fits 255 (trim ss)))]];
    cbn [handleError log add_log set_store add_call fst snd w_store w_calls w_pool w_fault w_log];
    intro E; injection E as <- <-; split; reflexivity.
Qed.

(** X8: a create with a valid body, a fresh uuid of at most 36 characters and trimmed strings that fit their VARCHAR(255) columns appends exactly one row at the end of the store: the uuid, the trimmed fullname and study_level, and the integer age, each string as the column stores it (a lone surrogate becomes U+FFFD). *)
Theorem create_appends_one_row (b : jsval) (g : jstr) (w : world) :
  valid_body b -> w_pool w = true -> w_fault w (List.length (w_calls w)) = None ->
  existsb (has_uuid g) (w_store w) = false -> fits 36 g = true -> body_fits b = true ->
  exists fs ss z,
    prop b (lit "fullname") = JStr fs /\ prop b (lit "study_level") = JStr ss /\
    (inject_Z z == match Number (prop b (lit "age")) with Fin q => q | _ => 0 end)%Q /\
    w_store (snd (route (ReqCreate b g) w)) =
      w_store w ++ [mkRow (db_string g) (db_string (trim fs)) (db_string (trim ss)) z].
Proof.
  intros Hv Hp Hfl Hfr Hg36 Hbf.
  destruct (valid_body_fields b Hv) as [fs [ss [q [z [Hf [Hs [Hq [Hz Hzq]]]]]]]].
  unfold body_fits in Hbf. rewrite Hf, Hs in Hbf. apply andb_prop in Hbf as [Hf255 Hs255].
  exists fs, ss, z. rewrite Hq. split; [exact Hf|split; [exact Hs|split; [exact Hzq|]]].
  exact (proj2 (create_spec b g fs ss z w Hv Hf Hs Hz Hp Hfl Hfr Hg36 Hf255 Hs255)).
Qed.


Lemma run_stmt_update_uuids (f s : jstr) (a : jsnum) (u : jstr) (st : list row) :
  map r_uuid (snd (run_stmt (SqlUpdate f s a u) st)) = map r_uuid st.
Proof.
  cbn [run_stmt]. destruct (existsb (has_uuid u) st); [|reflexivity].
  destruct (negb (fits 255 f)); [reflexivity|]. destruct (negb (fits 255 s)); [reflexivity|].
  destruct (sql_int a); simpl; [|reflexivity].
  rewrite map_map. apply map_ext. intro r. destruct (has_uuid u r); reflexivity.
Qed.

Lemma run_stmt_select_store (u : jstr) (st : list row) :
  snd (run_stmt (SqlSelectByUuid u) st) = st.
Proof. reflexivity. Qed.

(** X9: GET /api/users, GET /api/users/:uuid and GET /health never change the store, whatever the storage does. *)
Theorem reads_leave_store (u : jstr) (w : world) :
  w_store (snd (route ReqList w)) = w_store w /\
  w_store (snd (route (ReqGet u) w)) = w_store w /\
  w_store (snd (health_check w)) = w_store w.
Proof.
  split; [|split].
  - apply (route_wp ReqList (fun _ w' => w_store w' = w_store w)).
    simpl handler; unfold list_users; walk_handler; reflexivity.
  - apply (route_wp (ReqGet u) (fun _ w' => w_store w' = w_store w)).
    simpl handler; unfold get_user; walk_handler; reflexivity.
  - change (wp health_check (fun _ w' => w_store w' = w_store w) w).
    unfold health_check; walk_handler; reflexivity.
Qed.

(** X10: PUT /api/users/:uuid never adds, removes, reorders or renames rows: the uuid column is the same before and after. *)
Theorem update_keeps_uuids (u : jstr) (b : jsval) (w : world) :
  map r_uuid (w_store (snd (route (ReqUpdate u b) w))) = map r_uuid (w_store w).
Proof.
  apply (route_wp (ReqUpdate u b) (fun _ w' => map r_uuid (w_store w') = map r_uuid (w_store w))).
  simpl handler; unfold update_user; walk_handler;
    cbn [w_store add_log add_call set_store]; rewrite ?run_stmt_select_store;
    first [reflexivity | apply run_stmt_update_uuids].
Qed.

(** X11: DELETE /api/users/:uuid either leaves the store unchanged or removes exactly the rows with that uuid. *)
Theorem delete_effect (u : jstr) (w : world) :
  w_store (snd (route (ReqDelete u) w)) = w_store w \/
  w_store (snd (route (ReqDelete u) w)) = filter (fun r => negb (has_uuid u r)) (w_store w).
Proof.
  apply (route_wp (ReqDelete u) (fun _ w' => w_store w' = w_store w \/
           w_store w' = filter (fun r => negb (has_uuid u r)) (w_store w))).
  simpl handler; unfold delete_user; walk_handler; cbn [w_store add_log add_call set_store];
    first [left; reflexivity | right; reflexivity].
Qed.

(** X12: POST /api/users either leaves the store unchanged or appends one row whose uuid was absent before; the row's uuid is the generated value as the column stores it. *)
Theorem create_effect (b : jsval) (g : jstr) (w : world) :
  w_store (snd (route (ReqCreate b g) w)) = w_store w \/
  (existsb (has_uuid g) (w_store w) = false /\
   exists f s z, w_store (snd (route (ReqCreate b g) w)) = w_store w ++ [mkRow (db_string g) f s z]).
Proof.
  apply (route_wp (ReqCreate b g) (fun _ w' => w_store w' = w_store w \/
           (existsb (has_uuid g) (w_store w) = false /\
            exists f s z, w_store w' = w_store w ++ [mkRow (db_string g) f s z]))).
  simpl handler; unfold create_user; walk_handler; cbn [w_store add_log add_call set_store];
    try (left; reflexivity).
  all: cbn [run_stmt snd] in *.
  all: repeat match goal with
       | |- context [if negb ?c then _ else _] => destruct (negb c); [left; reflexivity|]
       | |- context [match sql_int ?a with _ => _ end] => destruct (sql_int a); [|left; reflexivity]
       end.
  all: destruct (existsb (has_uuid g) (w_store w)) eqn:Ex; [left; reflexivity|].
  all: right; split; [reflexivity|eexists _, _, _; reflexivity].
Qed.

Lemma field_errors_no_payload (f s a : jsval) : ~ In msg_payload (field_errors f s a).
Proof.
  unfold field_errors, fullname_rule, study_level_rule, age_rule.
  destruct (js_falsy f || _ || _); destruct (js_falsy s || _ || _);
    destruct (js_strict_eq a JUndef || _ || _); try destruct (negb _ || _ || _);
    simpl; intuition; vm_compute in *; discriminate.
Qed.

Ltac status_differs :=
  let E := fresh "E" in intro E; apply (f_equal status) in E; cbn [status validation_failed] in E;
  discriminate E.

(** X13: the Payload invalid branch of validateUser is dead code for the routes: no request is ever answered with that error list. *)
Theorem payload_invalid_never_answered (r : request) (w : world) :
  fst (route r w) <> validation_failed (JArr [JStr msg_payload]).
Proof.
  apply (route_wp r (fun resp _ => resp <> validation_failed (JArr [JStr msg_payload]))).
  destruct r as [|u|b g|u b|u]; simpl handler;
    [unfold list_users|unfold get_user|unfold create_user|unfold update_user|unfold delete_user];
    walk_handler; try status_differs.
  all: match goal with
       | |- validation_failed (prop (validateUser (user_fields ?f ?s ?a)) _) <> _ =>
           destruct (valid_flag f s a) as [_ Herr]; rewrite Herr; intro E;
           injection E as E; apply (field_errors_no_payload f s a);
           destruct (field_errors f s a) as [|x [|y l]]; try discriminate E;
           injection E as ->; left; reflexivity
       end.
Qed.

Lemma route_log_step (r : request) (w : world) :
  exists sev m ctx,
    w_log (snd (route r w)) = w_log w ++ [(sev, log_record (status (fst (route r w))) m ctx)] /\
    (sev = Error <-> status (fst (route r w)) = 500).
Proof.
  apply (route_wp r (fun resp w' => exists sev m ctx,
    w_log w' = w_log w ++ [(sev, log_record (status resp) m ctx)] /\
    (sev = Error <-> status resp = 500))).
  destruct r as [|u|b g|u b|u]; simpl handler;
    [unfold list_users|unfold get_user|unfold create_user|unfold update_user|unfold delete_user];
    walk_handler; cbn [w_log add_log add_call set_store status validation_failed];
    eexists _, _, _; (split; [reflexivity|]); split; intro E; first [reflexivity | discriminate E].
Qed.

(** X14: each request writes exactly one log record, whose status is the response status; it is at error level exactly when the status is 500. *)
Theorem one_log_per_request (r : request) (w : world) :
  exists sev m ctx,
    w_log (snd (route r w)) = w_log w ++ [(sev, log_record (status (fst (route r w))) m ctx)] /\
    (sev = Error <-> status (fst (route r w)) = 500).
Proof. exact (route_log_step r w). Qed.

(** X17: with the pool assigned and SELECT 1 succeeding, GET /health answers 200 connected and sends just that statement. *)
Theorem health_reports_connected (w : world) :
  w_pool w = true -> w_fault w (List.length (w_calls w)) = None ->
  fst (health_check w) = Ret health_ok /\
  w_calls (snd (health_check w)) = w_calls w ++ [SqlSelect1].
Proof.
  intros Hp Hfl. unfold health_check, try_catch, bind, execute.
  rewrite Hp. cbv beta iota zeta delta [negb]. rewrite Hfl. cbn [run_stmt].
  split; reflexivity.
Qed.

(** X18: with the pool unassigned, or SELECT 1 failing with an error value other than undefined and null, GET /health answers 500 disconnected. *)
Theorem health_reports_disconnected (w : world) :
  w_pool w = false \/
  (w_pool w = true /\ exists e, w_fault w (List.length (w_calls w)) = Some e /\
                                e <> JUndef /\ e <> JNull) ->
  fst (health_check w) = Ret health_down.
Proof.
  intros [Hp|[Hp [e [Hfl [H1 H2]]]]]; unfold health_check, try_catch, bind, execute;
    rewrite Hp; cbv beta iota zeta delta [negb].
  - reflexivity.
  - rewrite Hfl. rewrite (get_prop_defined e _ H1 H2). reflexivity.
Qed.

(** X19: if SELECT 1 fails with undefined or null, the catch block of GET /health throws on error.message: the handler rejects with a TypeError and writes no log. *)
Theorem health_nullish_error_escapes (w : world) (e : jsval) :
  w_pool w = true -> w_fault w (List.length (w_calls w)) = Some e ->
  e = JUndef \/ e = JNull ->
  (exists te, fst (health_check w) = Thr te) /\
  w_log (snd (health_check w)) = w_log w.
Proof.
  intros Hp Hfl He. unfold health_check, try_catch, bind, execute.
  rewrite Hp. cbv beta iota zeta delta [negb]. rewrite Hfl.
  destruct He as [->| ->]; (split; [eexists; reflexivity|reflexivity]).
Qed.

(** X20: an error raised before the routes goes through the two error middlewares: a SyntaxError with status 400 and a body answers 400 Malformed JSON, any other error 500; exactly one error record is logged and the storage is not touched. *)
Theorem error_pipeline_answers (err : http_error) (w : world) :
  fst (error_pipeline err w) =
    Ret (if he_syntax err && js_strict_eq (he_status err) (jnum_z 400) && he_has_body err
         then mkResp 400 (error_body (lit "Malformed JSON"))
         else mkResp 500 (error_body (lit "Unhandled server error"))) /\
  w_store (snd (error_pipeline err w)) = w_store w /\
  w_calls (snd (error_pipeline err w)) = w_calls w /\
  exists m ctx, w_log (snd (error_pipeline err w)) =
    w_log w ++ [(Error, log_record (if he_syntax err && js_strict_eq (he_status err) (jnum_z 400)
                                      && he_has_body err then 400 else 500) m ctx)].
Proof.
  unfold error_pipeline, json_error_middleware, global_error_handler, bind.
  destruct (he_syntax err && js_strict_eq (he_status err) (jnum_z 400) && he_has_body err);
    cbn; (split; [reflexivity|]); (split; [reflexivity|]); (split; [reflexivity|]);
    eexists _, _; reflexivity.
Qed.


(** X21: when no two stored uuids are equal for the column's collation (as the primary key keeps them), with a working storage, GET /api/users/:uuid answers 200 with the row the parameter matches. *)
Theorem get_returns_stored_row (u : jstr) (r : row) (w : world) :
  keys_unique (w_store w) -> In r (w_store w) -> has_uuid u r = true ->
  w_pool w = true -> w_fault w (List.length (w_calls w)) = None ->
  fst (route (ReqGet u) w) = mkResp 200 (row_to_js r).
Proof.
  intros Hu Hin Hr Hp Hfl. rewrite (get_spec u w Hp Hfl).
  rewrite (filter_unique u r _ Hu Hin Hr). reflexivity.
Qed.

(** X22: with a working storage, GET /api/users/:uuid on a uuid absent from the store answers 404. *)
Theorem get_missing_user (u : jstr) (w : world) :
  existsb (has_uuid u) (w_store w) = false ->
  w_pool w = true -> w_fault w (List.length (w_calls w)) = None ->
  fst (route (ReqGet u) w) = mkResp 404 (error_body msg_not_found).
Proof.
  intros Hab Hp Hfl. rewrite (get_spec u w Hp Hfl), (existsb_false_filter _ _ Hab). reflexivity.
Qed.

Lemma body_errors_not_object (b : jsval) :
  match b with JUndef | JNull | JObj _ => False | _ => True end ->
  body_errors b = [msg_fullname; msg_study; msg_age_nan].
Proof. destruct b; intro Hb; try contradiction; reflexivity. Qed.

(** X23: a body that is a string, number, boolean or array is answered 400 by create and update with the three field errors, and the store is unchanged. *)
Theorem non_object_body_rejected (b : jsval) (g u : jstr) (w : world) :
  match b with JUndef | JNull | JObj _ => False | _ => True end ->
  fst (route (ReqCreate b g) w) = validation_failed (JArr (map JStr [msg_fullname; msg_study; msg_age_nan])) /\
  w_store (snd (route (ReqCreate b g) w)) = w_store w /\
  fst (route (ReqUpdate u b) w) = validation_failed (JArr (map JStr [msg_fullname; msg_study; msg_age_nan])) /\
  w_store (snd (route (ReqUpdate u b) w)) = w_store w.
Proof.
  intro Hb. pose proof (body_errors_not_object b Hb) as He.
  assert (H1 : b <> JUndef) by (intros ->; exact Hb).
  assert (H2 : b <> JNull) by (intros ->; exact Hb).
  assert (H3 : body_errors b <> []) by (rewrite He; discriminate).
  rewrite (create_user_invalid b g w H1 H2 H3), (update_user_invalid u b w H1 H2 H3), He.
  repeat split.
Qed.

(** X24: an undefined or null body makes the destructuring throw: create and update answer their generic 500, send no statement and leave the store unchanged. *)
Theorem missing_body_answers_500 (b : jsval) (g u : jstr) (w : world) :
  b = JUndef \/ b = JNull ->
  fst (route (ReqCreate b g) w) = generic_error (ReqCreate b g) /\
  w_store (snd (route (ReqCreate b g) w)) = w_store w /\
  w_calls (snd (route (ReqCreate b g) w)) = w_calls w /\
  fst (route (ReqUpdate u b) w) = generic_error (ReqUpdate u b) /\
  w_store (snd (route (ReqUpdate u b) w)) = w_store w /\
  w_calls (snd (route (ReqUpdate u b) w)) = w_calls w.
Proof. intros [-> | ->]; repeat split. Qed.

(** X25: a boolean age passes validation (Number(true) is 1, Number(false) is 0): when the uuid and the trimmed strings fit their columns, create stores and answers 1 or 0 as the age. *)
Theorem boolean_age_stored_as_int (b : jsval) (g : jstr) (bv : bool) (w : world) :
  fullname_rule (prop b (lit "fullname")) = [] ->
  study_level_rule (prop b (lit "study_level")) = [] ->
  prop b (lit "age") = JBool bv ->
  w_pool w = true -> w_fault w (List.length (w_calls w)) = None ->
  existsb (has_uuid g) (w_store w) = false -> fits 36 g = true -> body_fits b = true ->
  prop (body (fst (route (ReqCreate b g) w))) (lit "age") = jnum_z (if bv then 1 else 0) /\
  exists fs ss, w_store (snd (route (ReqCreate b g) w)) =
                w_store w ++ [mkRow (db_string g) (db_string (trim fs)) (db_string (trim ss))
                                    (if bv then 1 else 0)].
Proof.
  intros Hf Hs Ha Hp Hfl Hfr Hg36 Hbf.
  assert (Hv : valid_body b).
  { assert (Hn : b <> JUndef /\ b <> JNull) by (split; intros ->; discriminate Ha).
    destruct Hn as [Hn1 Hn2]. split; [exact Hn1|split; [exact Hn2|]].
    unfold body_errors, field_errors. rewrite Hf, Hs, Ha. destruct bv; reflexivity. }
  apply fullname_rule_nil in Hf as [fs [Hfs _]].
  apply study_level_rule_nil in Hs as [ss [Hss _]].
  unfold body_fits in Hbf. rewrite Hfs, Hss in Hbf. apply andb_prop in Hbf as [Hf255 Hs255].
  assert (Hz : sql_int (Number (prop b (lit "age"))) = Some (if bv then 1 else 0))
    by (rewrite Ha; destruct bv; reflexivity).
  destruct (create_spec b g fs ss _ w Hv Hfs Hss Hz Hp Hfl Hfr Hg36 Hf255 Hs255) as [R S].
  split; [|exists fs, ss; exact S].
  rewrite R. unfold normalized_user. cbn [body]. rewrite Ha. destruct bv; reflexivity.
Qed.

(** X15: a sequence of requests adds one log record per request. *)
Theorem log_grows_one_per_request (rs : list request) (w : world) :
  List.length (w_log (run_requests rs w)) = (List.length (w_log w) + List.length rs)%nat.
Proof.
  revert w; induction rs as [|r rs IH]; intro w; simpl; [lia|].
  rewrite IH. destruct (route_log_step r w) as [sev [m [ctx [E _]]]].
  rewrite E, length_app. simpl. lia.
Qed.

(** X16: when every statement fails, no request changes the store. *)
Theorem storage_failures_keep_store (r : request) (w : world) :
  (forall i, w_fault w i <> None) ->
  w_store (snd (route r w)) = w_store w.
Proof.
  intro Hall. apply (route_wp r (fun _ w' => w_store w' = w_store w)).
  destruct r as [|u|b g|u b|u]; simpl handler;
    [unfold list_users|unfold get_user|unfold create_user|unfold update_user|unfold delete_user];
    walk_handler; cbn [w_store add_log add_call set_store];
    first [reflexivity | exfalso; eapply Hall; eassumption].
Qed.

Lemma ordpairs_map {A B} (R : B -> B -> Prop) (f : A -> B) (l : list A) :
  ForallOrdPairs (fun x y => R (f x) (f y)) l <-> ForallOrdPairs R (map f l).
Proof.
  assert (Hinv : forall {C} (S : C -> C -> Prop) a l',
            ForallOrdPairs S (a :: l') -> Forall (S a) l' /\ ForallOrdPairs S l')
    by (intros C S a l' Hl; inversion Hl; auto).
  induction l as [|x l IH]; simpl; [split; constructor|].
  split; intro Hl; apply Hinv in Hl as [Hx Hr]; constructor.
  - apply Forall_map. exact Hx.
  - apply IH. exact Hr.
  - rewrite Forall_map in Hx. exact Hx.
  - apply IH. exact Hr.
Qed.

Lemma ordpairs_filter {A} (R : A -> A -> Prop) (p : A -> bool) (l : list A) :
  ForallOrdPairs R l -> ForallOrdPairs R (filter p l).
Proof.
  induction 1 as [|x l Hx Hl IH]; simpl; [constructor|].
  destruct (p x); [|exact IH]. constructor; [|exact IH].
  apply Forall_forall. intros y Hy. apply filter_In in Hy as [Hy _].
  rewrite Forall_forall in Hx. exact (Hx y Hy).
Qed.

Lemma ordpairs_snoc {A} (R : A -> A -> Prop) (l : list A) (y : A) :
  ForallOrdPairs R l -> Forall (fun x => R x y) l -> ForallOrdPairs R (l ++ [y]).
Proof.
  induction 1 as [|x l Hx Hl IH]; intro Hy; simpl; [repeat constructor|].
  apply Forall_cons_iff in Hy as [Hxy Hys]. constructor.
  - apply Forall_app. split; [exact Hx|constructor; [exact Hxy|constructor]].
  - exact (IH Hys).
Qed.

Lemma existsb_false_forall (u : jstr) (st : list row) :
  existsb (has_uuid u) st = false -> Forall (fun x => has_uuid u x = false) st.
Proof.
  induction st as [|x st IH]; simpl; [constructor|].
  intro E. apply orb_false_iff in E as [E1 E2]. constructor; [exact E1|exact (IH E2)].
Qed.

Lemma run_stmt_keys_unique (s : stmt) (st : list row) :
  keys_unique st -> keys_unique (snd (run_stmt s st)).
Proof.
  intro Hk. destruct s as [| |u|u f sl a|f sl a u|u|]; simpl; try exact Hk.
  - destruct (negb (fits 36 u)); [exact Hk|].
    destruct (negb (fits 255 f)); [exact Hk|].
    destruct (negb (fits 255 sl)); [exact Hk|].
    destruct (sql_int a); [|exact Hk].
    destruct (existsb (has_uuid u) st) eqn:E; [exact Hk|]. simpl.
    apply ordpairs_snoc; [exact Hk|]. exact (existsb_false_forall u st E).
  - pose proof (run_stmt_update_uuids f sl a u st) as Hm.
    unfold keys_unique in *. apply ordpairs_map with (f := r_uuid)
      (R := fun a b => coll_eqb a b = false).
    cbn [run_stmt] in Hm. rewrite Hm. apply ordpairs_map. exact Hk.
  - apply ordpairs_filter. exact Hk.
Qed.

Lemma route_keys_unique (r : request) (w : world) :
  keys_unique (w_store w) -> keys_unique (w_store (snd (route r w))).
Proof.
  intro Hw. apply (route_wp r (fun _ w' => keys_unique (w_store w'))).
  destruct r as [|u|b g|u b|u]; simpl handler;
    [unfold list_users|unfold get_user|unfold create_user|unfold update_user|unfold delete_user];
    walk_handler; cbn [w_store add_log add_call set_store]; try exact Hw;
    apply run_stmt_keys_unique; exact Hw.
Qed.

(** X26: if no two stored uuids are equal for the column's collation, none are after any sequence of requests: the INSERT is refused when the parameter matches a stored key, update keeps the keys and delete only removes rows. *)
Theorem keys_stay_unique (rs : list request) (w : world) :
  keys_unique (w_store w) -> keys_unique (w_store (run_requests rs w)).
Proof.
  revert w; induction rs as [|r rs IH]; intros w Hw; simpl; [exact Hw|].
  apply IH. apply route_keys_unique. exact Hw.
Qed.

End Extras.

(** ** The concrete collation is an equivalence *)

Lemma jstr_eqb_sym (a b : jstr) : jstr_eqb a b = jstr_eqb b a.
Proof.
  destruct (jstr_eqb a b) eqn:E.
  - apply jstr_eqb_true in E. subst. symmetry. apply jstr_eqb_refl.
  - destruct (jstr_eqb b a) eqn:E'; [|reflexivity].
    apply jstr_eqb_true in E'. subst. rewrite jstr_eqb_refl in E. discriminate.
Qed.

Lemma ci_eqb_refl (a : jstr) : ci_eqb a a = true.
Proof. apply jstr_eqb_refl. Qed.

Lemma ci_eqb_sym (a b : jstr) : ci_eqb a b = ci_eqb b a.
Proof. apply jstr_eqb_sym. Qed.

Lemma ci_eqb_trans (a b c : jstr) : ci_eqb a b = true -> ci_eqb b c = true -> ci_eqb a c = true.
Proof.
  unfold ci_eqb. intros E1 E2. apply jstr_eqb_true in E1, E2. rewrite E1, E2.
  apply jstr_eqb_refl.
Qed.

#[export] Instance ci_collation : Collation :=
  { coll_eqb := ci_eqb; coll_refl := ci_eqb_refl; coll_sym := ci_eqb_sym;
    coll_trans := ci_eqb_trans }.

(** C2, as stated: refuted. On a valid input with padded strings the
    validator answers [{valid: true, errors: []}]: it has no fullname,
    study_level or age property, and no record under any other name. *)
Lemma validator_output_holds_no_record :
  validateUser (user_fields (JStr (lit "  John Doe ")) (JStr (lit " Master")) (jnum_z 25))
    = mk_validation true [] /\
  prop (mk_validation true []) (lit "fullname") = JUndef /\
  prop (mk_validation true []) (lit "study_level") = JUndef /\
  prop (mk_validation true []) (lit "age") = JUndef /\
  prop (mk_validation true []) (lit "normalizedRecord") = JUndef.
Proof. vm_compute. repeat split. Qed.

(** C3, as stated: refuted. The create answer for the scenario's body has
    no [id] field; the generated value is under [uuid]. *)
Lemma create_answer_has_no_id :
  status (fst (route (ReqCreate john_body (lit "u1")) (world0 []))) = 201 /\
  prop (body (fst (route (ReqCreate john_body (lit "u1")) (world0 [])))) (lit "id") = JUndef /\
  prop (body (fst (route (ReqCreate john_body (lit "u1")) (world0 [])))) (lit "uuid")
    = JStr (lit "u1").
Proof. vm_compute. repeat split. Qed.


(** ** Witnesses *)

Lemma validateUser_collects_all_violations_witness :
  body_errors bad_body = [msg_fullname; msg_study; msg_age_range] /\
  fst (route (ReqCreate bad_body (lit "u1")) (world0 [])) = mkResp 400
    (JObj [(lit "error", JStr (lit "Validation failed"));
           (lit "details", JArr (map JStr [msg_fullname; msg_study; msg_age_range]))]).
Proof.
  assert (E : body_errors bad_body = [msg_fullname; msg_study; msg_age_range])
    by (vm_compute; reflexivity).
  split; [exact E|].
  destruct (validateUser_collects_all_violations bad_body bad_body (lit "u1") (lit "u1")
              (world0 []) eq_refl eq_refl ltac:(discriminate) ltac:(discriminate)) as [_ H2].
  rewrite <- E. apply H2. rewrite E. discriminate.
Defined.

Lemma bad_age_rejected_by_create_and_update_witness :
  age_out_of_contract (prop neg_age_body (lit "age")) = true /\
  status (fst (route (ReqCreate neg_age_body (lit "u2")) (world0 [ann_row]))) = 400 /\
  status (fst (route (ReqUpdate (lit "u1") neg_age_body) (world0 [ann_row]))) = 400.
Proof.
  assert (Ha : age_out_of_contract (prop neg_age_body (lit "age")) = true)
    by (vm_compute; reflexivity).
  destruct (bad_age_rejected_by_create_and_update neg_age_body (lit "u2") (lit "u1")
              (world0 [ann_row]) ltac:(discriminate) ltac:(discriminate) Ha)
    as [m [_ [_ [Hc [Hu _]]]]].
  split; [exact Ha|split; [exact Hc|exact Hu]].
Defined.

Lemma validation_precedes_storage_witness :
  body_errors bad_body <> [] /\
  (let '(resp, w') := route (ReqUpdate (lit "u1") bad_body) (world0 [ann_row]) in
   status resp = 400 /\ w_store w' = w_store (world0 [ann_row]) /\
   w_calls w' = w_calls (world0 [ann_row]) /\
   forall w2, fst (route (ReqUpdate (lit "u1") bad_body) w2) = resp).
Proof.
  assert (Hne : body_errors bad_body <> []) by (vm_compute; discriminate).
  split; [exact Hne|].
  exact (proj1 (validation_precedes_storage (lit "u1") (lit "u2") bad_body
                  (world0 [ann_row]) ltac:(discriminate) ltac:(discriminate) Hne)).
Defined.

Lemma initDatabase_terminates_witness :
  (10 < 11)%nat /\
  initDatabase 11 (fun k => Nat.eqb k 3) = init_outcome (fun k => Nat.eqb k 3) 10 5000.
Proof.
  split; [lia|].
  exact (proj1 (initDatabase_terminates (fun k => Nat.eqb k 3) 11 ltac:(lia))).
Defined.

Lemma listener_opens_before_storage_witness :
  w_pool unassigned_world = false /\ status (fst (route ReqList unassigned_world)) = 500.
Proof.
  destruct (listener_opens_before_storage 11 (fun _ => false) ReqList unassigned_world
              ltac:(lia) eq_refl) as [_ [[Hs|Hs] _]].
  - vm_compute in Hs. discriminate Hs.
  - split; [reflexivity|exact Hs].
Defined.

Lemma store_rows_keep_shape_witness :
  store_ok (w_store (world0 [])) /\
  store_ok (w_store (run_requests [ReqCreate john_body (lit "u1");
                                   ReqUpdate (lit "u1") bad_body] (world0 []))).
Proof.
  assert (H0 : store_ok (w_store (world0 []))) by (apply Forall_nil).
  split; [exact H0|exact (store_rows_keep_shape _ _ H0)].
Defined.


Lemma storage_errors_answer_generic_500_witness :
  faulted (failing_world "connect ECONNREFUSED 10.0.0.5:3306")
    (snd (route ReqList (failing_world "connect ECONNREFUSED 10.0.0.5:3306"))) /\
  fst (route ReqList (failing_world "connect ECONNREFUSED 10.0.0.5:3306"))
    = generic_error ReqList /\
  fst (route ReqList (failing_world "connect ECONNREFUSED 10.0.0.5:3306"))
    = fst (route ReqList (failing_world "Access denied for user root")).
Proof.
  assert (Hf : faulted (failing_world "connect ECONNREFUSED 10.0.0.5:3306")
                 (snd (route ReqList (failing_world "connect ECONNREFUSED 10.0.0.5:3306")))).
  { exists 0%nat. split; [simpl; lia|simpl; discriminate]. }
  destruct (storage_errors_answer_generic_500 ReqList
              (failing_world "connect ECONNREFUSED 10.0.0.5:3306")
              (failing_world "Access denied for user root")) as [A B].
  split; [exact Hf|split; [apply A; right; exact Hf|]].
  apply B. split; [reflexivity|split; [reflexivity|split; [reflexivity|]]].
  intro i. split; intro E; discriminate E.
Defined.

Lemma validateUser_success_shape_witness :
  prop (validateUser (user_fields (JStr (lit "  John Doe ")) (JStr (lit " Master")) (jnum_z 25)))
    (lit "valid") = JBool true /\
  validateUser (user_fields (JStr (lit "  John Doe ")) (JStr (lit " Master")) (jnum_z 25))
    = mk_validation true [].
Proof.
  assert (E : prop (validateUser (user_fields (JStr (lit "  John Doe ")) (JStr (lit " Master"))
                                   (jnum_z 25))) (lit "valid") = JBool true)
    by (vm_compute; reflexivity).
  split; [exact E|exact (proj1 (validateUser_success_shape _ E))].
Defined.

Lemma create_answers_uuid_record_witness :
  valid_body john_body /\ valid_body long_body /\
  fst (route (ReqCreate john_body (lit "u2")) (world0 [ann_row]))
    = mkResp 201 (normalized_user (lit "u2") john_body) /\
  fst (route (ReqCreate long_body (lit "u2")) (world0 [ann_row]))
    = mkResp 500 (error_body (lit "Error creating user")).
Proof.
  assert (Hv : valid_body john_body)
    by (split; [discriminate|split; [discriminate|vm_compute; reflexivity]]).
  assert (Hl : valid_body long_body)
    by (split; [discriminate|split; [discriminate|vm_compute; reflexivity]]).
  split; [exact Hv|split; [exact Hl|split]].
  - apply (create_answers_uuid_record (coll := ci_collation) john_body (lit "u2") (world0 [ann_row]) Hv eq_refl eq_refl
             ltac:(vm_compute; reflexivity) ltac:(vm_compute; reflexivity)).
    vm_compute. reflexivity.
  - apply (create_answers_uuid_record (coll := ci_collation) long_body (lit "u2") (world0 [ann_row]) Hl eq_refl eq_refl
             ltac:(vm_compute; reflexivity) ltac:(vm_compute; reflexivity)).
    vm_compute. reflexivity.
Defined.

Lemma uuids_stay_unique_witness :
  uuids_unique (w_store (world0 [ann_row])) /\
  uuids_unique (w_store (run_requests [ReqCreate john_body (lit "u1"); ReqCreate john_body (lit "u2");
                                       ReqDelete (lit "u1")] (world0 [ann_row]))).
Proof.
  assert (Hu : uuids_unique (w_store (world0 [ann_row])))
    by (constructor; [intro E; inversion E|constructor]).
  split; [exact Hu|exact (uuids_stay_unique _ _ Hu)].
Defined.

Lemma list_users_healthy_witness :
  fst (route ReqList (world0 [ann_row])) = mkResp 200 (JArr [row_to_js ann_row]).
Proof. exact (proj1 (list_users_healthy (world0 [ann_row]) eq_refl eq_refl)). Defined.

Lemma delete_user_healthy_witness :
  fst (route (ReqDelete (lit "U1")) (world0 [ann_row]))
    = mkResp 200 (JObj [(lit "message", JStr msg_deleted)]) /\
  w_store (snd (route (ReqDelete (lit "U1")) (world0 [ann_row]))) = [].
Proof. exact (delete_user_healthy (lit "U1") (world0 [ann_row]) eq_refl eq_refl). Defined.

Lemma delete_twice_not_found_witness :
  fst (route (ReqDelete (lit "u1")) (snd (route (ReqDelete (lit "u1")) (world0 [ann_row]))))
    = mkResp 404 (error_body msg_not_found).
Proof. exact (proj1 (delete_twice_not_found (lit "u1") (world0 [ann_row]) eq_refl eq_refl eq_refl)). Defined.

Lemma update_missing_user_witness :
  valid_body john_body /\
  fst (route (ReqUpdate (lit "u9") john_body) (world0 [ann_row])) = mkResp 404 (error_body msg_not_found).
Proof.
  assert (Hv : valid_body john_body)
    by (split; [discriminate|split; [discriminate|vm_compute; reflexivity]]).
  split; [exact Hv|].
  exact (proj1 (update_missing_user john_body (lit "u9") (world0 [ann_row]) Hv eq_refl eq_refl
                  (eq_refl : existsb (has_uuid (lit "u9")) [ann_row] = false))).
Defined.

Lemma create_never_overwrites_witness :
  valid_body john_body /\
  fst (route (ReqCreate john_body (lit "u1")) (world0 [ann_row])) = generic_error (ReqCreate john_body (lit "u1")) /\
  w_store (snd (route (ReqCreate john_body (lit "u1")) (world0 [ann_row]))) = [ann_row].
Proof.
  assert (Hv : valid_body john_body)
    by (split; [discriminate|split; [discriminate|vm_compute; reflexivity]]).
  split; [exact Hv|].
  exact (create_never_overwrites john_body (lit "u1") (world0 [ann_row]) Hv eq_refl eq_refl
           (eq_refl : existsb (has_uuid (lit "u1")) [ann_row] = true)).
Defined.

Lemma create_appends_one_row_witness :
  valid_body john_body /\
  exists fs ss z,
    prop john_body (lit "fullname") = JStr fs /\ prop john_body (lit "study_level") = JStr ss /\
    (inject_Z z == match Number (prop john_body (lit "age")) with Fin q => q | _ => 0 end)%Q /\
    w_store (snd (route (ReqCreate john_body (lit "u2")) (world0 [ann_row])))
      = [ann_row] ++ [mkRow (db_string (lit "u2")) (db_string (trim fs)) (db_string (trim ss)) z].
Proof.
  assert (Hv : valid_body john_body)
    by (split; [discriminate|split; [discriminate|vm_compute; reflexivity]]).
  split; [exact Hv|].
  exact (create_appends_one_row (coll := ci_collation) john_body (lit "u2") (world0 [ann_row]) Hv eq_refl eq_refl
           (eq_refl : existsb (has_uuid (lit "u2")) [ann_row] = false)
           ltac:(vm_compute; reflexivity) ltac:(vm_compute; reflexivity)).
Defined.

Lemma storage_failures_keep_store_witness :
  w_store (snd (route (ReqDelete (lit "u1"))
                 (mkWorld true [ann_row] (fun _ => Some (sql_error "Lock wait timeout")) [] []))) = [ann_row].
Proof. apply storage_failures_keep_store. intros i E. discriminate E. Defined.

Lemma health_reports_connected_witness :
  fst (health_check (world0 [ann_row])) = Ret health_ok.
Proof. exact (proj1 (health_reports_connected (world0 [ann_row]) eq_refl eq_refl)). Defined.

Lemma health_reports_disconnected_witness :
  fst (health_check unassigned_world) = Ret health_down /\
  fst (health_check (failing_world "connect ECONNREFUSED")) = Ret health_down.
Proof.
  split; apply health_reports_disconnected; [left; reflexivity|right].
  split; [reflexivity|]. eexists. split; [reflexivity|split; discriminate].
Defined.

Lemma health_nullish_error_escapes_witness :
  (exists te, fst (health_check null_fault_world) = Thr te) /\
  w_log (snd (health_check null_fault_world)) = [].
Proof. exact (health_nullish_error_escapes null_fault_world JNull eq_refl eq_refl (or_intror eq_refl)). Defined.

Lemma get_returns_stored_row_witness :
  fst (route (ReqGet (lit "U1")) (world0 [ann_row; mkRow (lit "u2") (lit "Bo Li") (lit "BSc") 19]))
    = mkResp 200 (row_to_js ann_row).
Proof.
  apply (get_returns_stored_row (lit "U1") ann_row);
    [repeat constructor | left; reflexivity | reflexivity | reflexivity | reflexivity].
Defined.

Lemma get_missing_user_witness :
  fst (route (ReqGet (lit "u9")) (world0 [ann_row])) = mkResp 404 (error_body msg_not_found).
Proof. exact (get_missing_user (lit "u9") (world0 [ann_row]) eq_refl eq_refl eq_refl). Defined.

Lemma non_object_body_rejected_witness :
  fst (route (ReqCreate (JStr (lit "John Doe")) (lit "u2")) (world0 [ann_row]))
    = validation_failed (JArr (map JStr [msg_fullname; msg_study; msg_age_nan])).
Proof. exact (proj1 (non_object_body_rejected (JStr (lit "John Doe")) (lit "u2") (lit "u1") (world0 [ann_row]) I)). Defined.

Lemma missing_body_answers_500_witness :
  fst (route (ReqUpdate (lit "u1") JNull) (world0 [ann_row])) = generic_error (ReqUpdate (lit "u1") JNull).
Proof.
  destruct (missing_body_answers_500 JNull (lit "u2") (lit "u1") (world0 [ann_row]) (or_intror eq_refl))
    as [_ [_ [_ [H _]]]].
  exact H.
Defined.

Lemma boolean_age_stored_as_int_witness :
  prop (body (fst (route (ReqCreate bool_age_body (lit "u2")) (world0 [])))) (lit "age") = jnum_z 1.
Proof.
  exact (proj1 (boolean_age_stored_as_int (coll := ci_collation) bool_age_body (lit "u2") true (world0 [])
                  eq_refl eq_refl eq_refl eq_refl eq_refl eq_refl
                  ltac:(vm_compute; reflexivity) ltac:(vm_compute; reflexivity))).
Defined.

Lemma keys_stay_unique_witness :
  keys_unique (w_store (world0 [ann_row])) /\
  keys_unique (w_store (run_requests [ReqCreate john_body (lit "U1"); ReqCreate john_body (lit "u2");
                                      ReqUpdate (lit "U2") john_body; ReqDelete (lit "u1")]
                          (world0 [ann_row]))).
Proof.
  assert (Hk : keys_unique (w_store (world0 [ann_row]))) by (repeat constructor).
  split; [exact Hk|exact (keys_stay_unique _ _ Hk)].
Defined.
